(** * go-tunnel: endpoint parsing, tunnel construction and the SSH
      forwarding engine

    A shallow embedding of [tunnel.go] (configuration parsing, the factory
    registry, [FastStartTunnel]) and of the SSH engine ([SshTunnel]:
    construction, [Start], [forwardConnection] and its two copy tasks,
    [Stop]), followed by the
    properties of the specification that can be stated over it.

    Go strings are byte sequences: they are [string] here (a list of
    [ascii] bytes).  Go's [int] is 64 bits wide on the supported targets;
    the integers that occur are port numbers and are kept in [Z], with the
    64-bit range check of [strconv.Atoi] written out.  A Go result
    [(v, err)] is a value of [result]: [OK v] when [err == nil], [Err msg]
    with [msg = err.Error()] otherwise. *)

From Stdlib Require Import ZArith String Ascii List Lia DecimalString DecimalPos.
From stdpp Require Import base option gmap strings list.

Local Open Scope string_scope.
Local Open Scope Z_scope.

(** ** Results *)

Inductive result (A : Type) : Type :=
| OK (a : A)
| Err (msg : string).
Arguments OK {A} a.
Arguments Err {A} msg.

#[global] Instance result_ret : MRet result := @OK.
#[global] Instance result_bind : MBind result := fun A B f r =>
  match r with OK a => f a | Err e => Err e end.

(** ** The pieces of the Go library that the parsers call *)

Module GoLib.

(** [strings.HasPrefix s prefix]. *)
Fixpoint HasPrefix (s prefix : string) {struct prefix} : bool :=
  match prefix with
  | EmptyString => true
  | String a prefix' =>
      match s with
      | EmptyString => false
      | String b s' => if Ascii.eqb a b then HasPrefix s' prefix' else false
      end
  end.

(** [strings.Contains s substr]: [substr] occurs somewhere in [s]. *)
Fixpoint Contains (s substr : string) : bool :=
  HasPrefix s substr ||
  match s with
  | EmptyString => false
  | String _ s' => Contains s' substr
  end.

(** [strings.IndexByte s c >= 0]. *)
Fixpoint ContainsByte (s : string) (c : ascii) : bool :=
  match s with
  | EmptyString => false
  | String b s' => Ascii.eqb b c || ContainsByte s' c
  end.

(** The scan of [strings.Split] for a non-empty separator: the input is
    cut at each occurrence of [sep], found from left to right without
    overlap.  [cur] is the piece being collected and [skip] counts the
    bytes of a separator that was just matched and are still to pass. *)
Fixpoint splitFrom (sep : string) (skip : nat) (cur s : string) : list string :=
  match s with
  | EmptyString => [cur]
  | String c s' =>
      match skip with
      | S k => splitFrom sep k cur s'
      | O =>
          if HasPrefix s sep
          then cur :: splitFrom sep (String.length sep - 1) EmptyString s'
          else splitFrom sep 0 (cur +:+ String c EmptyString) s'
      end
  end.

(** [strings.Split s sep], for the separators of this program (["://"] and
    [":"], both non-empty). *)
Definition Split (s sep : string) : list string := splitFrom sep 0 "" s.

Definition isDigit (c : ascii) : bool :=
  (("0" <=? c)%char && (c <=? "9")%char)%bool.

Definition digitVal (c : ascii) : Z := Z.of_N (N_of_ascii c) - 48.

Fixpoint parseDigits (acc : Z) (s : string) : option Z :=
  match s with
  | EmptyString => Some acc
  | String c s' =>
      if isDigit c then parseDigits (acc * 10 + digitVal c) s' else None
  end.

Definition minInt : Z := - 2 ^ 63.
Definition maxInt : Z := 2 ^ 63 - 1.

(** [strconv.Atoi]: an optional sign, then one or more decimal digits; the
    value has to fit Go's [int].  [None] stands for a non-nil error. *)
Definition Atoi (s : string) : option Z :=
  match s with
  | EmptyString => None
  | String c s' =>
      let neg := Ascii.eqb c "-" in
      let body := if (neg || Ascii.eqb c "+")%bool then s' else s in
      match body with
      | EmptyString => None
      | _ =>
          match parseDigits 0 body with
          | None => None
          | Some n =>
              let v := if neg then - n else n in
              if ((minInt <=? v) && (v <=? maxInt))%bool then Some v else None
          end
      end
  end.

(** The verb [%d] of [fmt.Sprintf] at an [int]. *)
Definition fmtInt (n : Z) : string := NilZero.string_of_int (Z.to_int n).

(** [rand.Intn n] for [0 < n]: the generator's accepted raw draw [v],
    reduced modulo [n]. *)
Definition Intn (v n : Z) : Z := v mod n.

End GoLib.
Import GoLib.

(** ** Resources, events and the world outside *)

(** Handles of the resources an engine opens: [net.Conn] values (accepted
    local sockets and streams dialed through a session) and [*ssh.Client]
    sessions. *)
Inductive Handle :=
| NetConn (c : nat)
| SshClient (c : nat).

#[global] Instance Handle_eq_dec : EqDecision Handle.
Proof. solve_decision. Defined.

#[global] Instance Handle_countable : Countable Handle.
Proof.
  refine (inj_countable'
            (fun h => match h with NetConn c => inl c | SshClient c => inr c end)
            (fun x => match x with inl c => NetConn c | inr c => SshClient c end) _).
  intros []; reflexivity.
Defined.

Inductive Task :=
| GoStart
| GoForwardConnection (localConn : nat)
| GoForwarder (writer reader : nat).

Inductive Flag := WillClose | IsClosed.

(** What a run does to its surroundings, in program order. *)
Inductive Event :=
| EInfof (format : string)             (* logger.Infof(format) *)
| EListen (addr : string)              (* net.Listen("tcp", addr) *)
| ESend (b : bool)                     (* tunnelReady <- b *)
| EAccept                              (* listener.Accept() *)
| ESshDial (addr : string)             (* ssh.Dial("tcp", addr, s.config) *)
| EDial (client : nat) (addr : string) (* client.Dial("tcp", addr) *)
| ECopy (writer reader : nat)          (* io.Copy(writer, reader) *)
| EClose (h : Handle)                  (* h.Close() *)
| EStore (f : Flag) (b : bool)         (* s.willClose = b, s.isClosed = b *)
| EGo (t : Task).                      (* go t *)

(** The world outside the engine.  [randDraw], [listenErr] and [incoming]
    are what the environment decides: the raw draw of the global random
    source, whether [net.Listen] fails at an address (and with which
    error), and the outcomes of the calls of [listener.Accept] observed so
    far.  [closed] is the set of handles on which [Close] has been called,
    [tunnelReady] the values sent on the readiness channel. *)
Record World := {
  randDraw : Z;
  listenErr : string -> option string;
  incoming : list (result nat);
  closed : gset Handle;
  tunnelReady : list bool;
  trace : list Event
}.

(** The updates of the world that the program makes. *)
Definition log (events : list Event) (w : World) : World :=
  {| randDraw := randDraw w; listenErr := listenErr w; incoming := incoming w;
     closed := closed w; tunnelReady := tunnelReady w;
     trace := trace w ++ events |}.

Definition markClosed (h : Handle) (w : World) : World :=
  {| randDraw := randDraw w; listenErr := listenErr w; incoming := incoming w;
     closed := {[h]} ∪ closed w; tunnelReady := tunnelReady w;
     trace := trace w |}.

Definition deliver (b : bool) (w : World) : World :=
  {| randDraw := randDraw w; listenErr := listenErr w; incoming := incoming w;
     closed := closed w; tunnelReady := tunnelReady w ++ [b];
     trace := trace w |}.

Definition clearIncoming (w : World) : World :=
  {| randDraw := randDraw w; listenErr := listenErr w; incoming := [];
     closed := closed w; tunnelReady := tunnelReady w; trace := trace w |}.

(** ** tunnel.go *)

Record TunnelConfig := {
  Protocol : string;
  TunnelEndpoint : string;
  Username : string;
  Password : string;
  RemoteAddr : string;
  RemotePort : Z;
  TunneledProtocol : string
}.

Definition defaultProtocolPorts : gmap string string :=
  <["http" := "80"]> (<["https" := "443"]> ∅).

(** [getTunneledProtocolAndRemoteAddr].  [strings.Split] never returns an
    empty slice ([Split_nonempty] below), so the first branch is not
    reached; in Go the index expression would panic there. *)
Definition getTunneledProtocolAndRemoteAddr (remoteAddr : string) : string * string :=
  match Split remoteAddr "://" with
  | [] => ("", "")
  | [p0] => ("http", p0)
  | p0 :: p1 :: _ => (p0, p1)
  end.

(** [splitAddrAndPort]. *)
Definition splitAddrAndPort (addrAndPort protocol : string) : result (string * Z) :=
  match Split addrAndPort ":" with
  | [] => Err "index out of range"
  | addr :: rest =>
      portStr ←
        match rest with
        | [] =>
            match defaultProtocolPorts !! protocol with
            | Some defaultPort => OK defaultPort
            | None => Err ("could not get default port for protocol " +:+ protocol)
            end
        | p1 :: _ => OK p1
        end;
      if String.eqb addr "" then Err "empty address/hostname provided."
      else if String.eqb portStr "" then Err "empty port provided."
      else
        match Atoi portStr with
        | None => Err ("invalid endpoint provided: " +:+ addrAndPort)
        | Some portNum => OK (addr, portNum)
        end
  end.

(** [BuildTunnelConfig]. *)
Definition BuildTunnelConfig (protocol tunnelEndpoint destEndpoint user password : string)
  : result TunnelConfig :=
  let '(tunneledProtocol, remoteEndpoint) := getTunneledProtocolAndRemoteAddr destEndpoint in
  '(remoteAddr, remotePort) ← splitAddrAndPort remoteEndpoint tunneledProtocol;
  OK {| Protocol := protocol;
        TunnelEndpoint := tunnelEndpoint;
        Username := user;
        Password := password;
        RemoteAddr := remoteAddr;
        RemotePort := remotePort;
        TunneledProtocol := tunneledProtocol |}.

(** [getEndpointInfo]: protocol, address and port, all three as strings. *)
Definition getEndpointInfo (endpointAddr : string) : result (string * string * string) :=
  match Split endpointAddr "://" with
  | [] => Err "index out of range"
  | p0 :: more =>
      let '(protocol, addrAndPort) :=
        match more with
        | [] => ("", p0)
        | p1 :: _ => (p0, p1)
        end in
      match Split addrAndPort ":" with
      | [] => Err "index out of range"
      | addr :: rest =>
          port ←
            match rest with
            | [] =>
                match defaultProtocolPorts !! protocol with
                | Some defaultPort => OK defaultPort
                | None => Err ("could not get default port for protocol " +:+ protocol)
                end
            | p1 :: _ => OK p1
            end;
          if String.eqb addr "" then Err "empty address/hostname provided."
          else if String.eqb port "" then Err "empty port provided."
          else OK (protocol, addr, port)
      end
  end.

(** The [Tunnel] interface.  A method with a pointer receiver that does
    I/O takes the engine and the world and returns both. *)
Class Tunnel (T : Type) := {
  GetName : T -> string;
  Start : T -> World -> T * World;
  Stop : T -> World -> T * World;
  GetLocalEndpoint : T -> string;
  GetRemoteEndpoint : T -> string
}.

(** [make(chan bool)] for [tunnelReady]: a new channel, nothing sent yet. *)
Definition makeTunnelReady (w : World) : World :=
  {| randDraw := randDraw w; listenErr := listenErr w; incoming := incoming w;
     closed := closed w; tunnelReady := []; trace := trace w |}.

Definition spawn (t : Task) (w : World) : World := log [EGo t] w.

Section FastStart.
Context {T : Type} `{Tunnel T}.

(** [FastStartTunnel], over the registry [factories].  The goroutine
    [go tunnelInstance.Start(tunnelReady)] is the only one that runs
    while the caller waits in [<-tunnelReady]; the value received is the
    first one sent, and the caller does not look at it.  [None]: nothing
    is ever sent and the receive blocks for ever. *)
Definition FastStartTunnel
    (factories : gmap string (World -> TunnelConfig -> result T))
    (tunnelConfig : TunnelConfig) (w : World) : option (result T * World) :=
  match factories !! Protocol tunnelConfig with
  | None =>
      Some (Err ("not supported tunnel protocol: " +:+ Protocol tunnelConfig), w)
  | Some tunnelFactoryFunc =>
      match tunnelFactoryFunc w tunnelConfig with
      | Err err => Some (Err ("create tunnel instance failed, err: " +:+ err), w)
      | OK tunnelInstance =>
          let w1 := makeTunnelReady w in
          let '(tunnelInstance', w2) := Start tunnelInstance (spawn GoStart w1) in
          match tunnelReady w2 with
          | [] => None
          | _ :: _ => Some (OK tunnelInstance', w2)
          end
      end
  end.
End FastStart.

(** ** The SSH engine *)

Module Ssh.

Inductive AuthMethod := PasswordAuth (secret : string).
Inductive HostKeyPolicy := InsecureIgnoreHostKey.

Record ClientConfig := {
  User : string;
  Auth : list AuthMethod;
  HostKeyCallback : HostKeyPolicy
}.

Record SshTunnel := {
  name : string;
  sshUsername : string;
  sshPassword : string;
  tunneledProtocol : string;
  localTunnelEndpoint : string;
  serverTunnelEndpoint : string;
  remoteEndpoint : string;
  config : ClientConfig;
  localConns : list nat;
  sshConns : list nat;
  remoteConns : list nat;
  willClose : bool;
  isClosed : bool
}.

Definition minLocalPort : Z := 50000.
Definition maxLocalPort : Z := 65000.

(** [getRandomListeningPort], at the raw draw [v] of the random source. *)
Definition getRandomListeningPort (v : Z) : Z :=
  Intn v (maxLocalPort - minLocalPort) + minLocalPort.

Definition getRelativeRemoteAddr (sshServerAddr remoteAddr : string) : string :=
  if String.eqb sshServerAddr remoteAddr then "localhost" else remoteAddr.

Definition getSSHServerAddrAndPort (tunnelConfig : TunnelConfig) : result (string * Z) :=
  let sshEndpoint := TunnelEndpoint tunnelConfig in
  match Atoi sshEndpoint with
  | Some portNum => OK (RemoteAddr tunnelConfig, portNum)
  | None => splitAddrAndPort sshEndpoint (TunneledProtocol tunnelConfig)
  end.

(** [SshTunnelFactory].  The three collections start as nil slices and the
    two flags as [false], Go's zero values. *)
Definition SshTunnelFactory (w : World) (tunnelConfig : TunnelConfig) : result SshTunnel :=
  let clientConfig :=
    {| User := Username tunnelConfig;
       Auth := [PasswordAuth (Password tunnelConfig)];
       HostKeyCallback := InsecureIgnoreHostKey |} in
  '(sshServerAddr, sshPort) ← getSSHServerAddrAndPort tunnelConfig;
  let localPortNum := getRandomListeningPort (randDraw w) in
  let relativeRemoteAddr := getRelativeRemoteAddr sshServerAddr (RemoteAddr tunnelConfig) in
  OK {| name := Protocol tunnelConfig;
        sshUsername := Username tunnelConfig;
        sshPassword := Password tunnelConfig;
        localTunnelEndpoint := "localhost:" +:+ fmtInt localPortNum;
        serverTunnelEndpoint := sshServerAddr +:+ ":" +:+ fmtInt sshPort;
        remoteEndpoint := relativeRemoteAddr +:+ ":" +:+ fmtInt (RemotePort tunnelConfig);
        config := clientConfig;
        tunneledProtocol := TunneledProtocol tunnelConfig;
        localConns := [];
        sshConns := [];
        remoteConns := [];
        willClose := false;
        isClosed := false |}.


(** *** State passing

    The methods with receiver [*SshTunnel] read and write the engine's
    fields and act on the world; [M] threads both. *)

Definition St : Type := SshTunnel * World.
Definition M (A : Type) : Type := St -> A * St.

Definition pureM {A} (a : A) : M A := fun st => (a, st).
Definition bindM {A B} (c : M A) (k : A -> M B) : M B :=
  fun st => let '(a, st') := c st in k a st'.

Notation "x <~ c ;; k" := (bindM c (fun x => k))
  (at level 60, c at next level, right associativity).
Notation "c ;;; k" := (bindM c (fun _ => k))
  (at level 60, right associativity).

(** The state a run leaves behind. *)
Definition exec {A} (c : M A) (st : St) : St := snd (c st).

Definition getS : M SshTunnel := fun st => (fst st, st).

Definition emit (e : Event) : M unit := fun '(s, w) => (tt, (s, log [e] w)).

Definition Infof (format : string) : M unit := emit (EInfof format).

(** [h.Close()]: the handle is closed from now on; closing it again is
    answered with an error value, which no caller in this program reads. *)
Definition Close (h : Handle) : M (option string) :=
  emit (EClose h) ;;;
  fun '(s, w) =>
    (if decide (h ∈ closed w) then Some "use of closed network connection" else None,
     (s, markClosed h w)).

(** [tunnelReady <- b]. *)
Definition send (b : bool) : M unit :=
  emit (ESend b) ;;; fun '(s, w) => (tt, (s, deliver b w)).

(** [net.Listen("tcp", addr)]: the error, if any. *)
Definition netListen (addr : string) : M (option string) :=
  emit (EListen addr) ;;; fun '(s, w) => (listenErr w addr, (s, w)).

Definition updConns (f : SshTunnel -> list nat * list nat * list nat) : M unit :=
  fun '(s, w) =>
    let '(lc, sc, rc) := f s in
    (tt, ({| name := name s; sshUsername := sshUsername s; sshPassword := sshPassword s;
             tunneledProtocol := tunneledProtocol s;
             localTunnelEndpoint := localTunnelEndpoint s;
             serverTunnelEndpoint := serverTunnelEndpoint s;
             remoteEndpoint := remoteEndpoint s; config := config s;
             localConns := lc; sshConns := sc; remoteConns := rc;
             willClose := willClose s; isClosed := isClosed s |}, w)).

(** [s.localConns = append(s.localConns, c)] and its two siblings. *)
Definition appendLocalConn (c : nat) : M unit :=
  updConns (fun s => ((localConns s ++ [c])%list, sshConns s, remoteConns s)).
Definition appendSshConn (c : nat) : M unit :=
  updConns (fun s => (localConns s, (sshConns s ++ [c])%list, remoteConns s)).
Definition appendRemoteConn (c : nat) : M unit :=
  updConns (fun s => (localConns s, sshConns s, (remoteConns s ++ [c])%list)).

Definition setFlags (wc ic : bool) (s : SshTunnel) : SshTunnel :=
  {| name := name s; sshUsername := sshUsername s; sshPassword := sshPassword s;
     tunneledProtocol := tunneledProtocol s;
     localTunnelEndpoint := localTunnelEndpoint s;
     serverTunnelEndpoint := serverTunnelEndpoint s;
     remoteEndpoint := remoteEndpoint s; config := config s;
     localConns := localConns s; sshConns := sshConns s; remoteConns := remoteConns s;
     willClose := wc; isClosed := ic |}.

(** [s.willClose = b] and [s.isClosed = b]. *)
Definition setWillClose (b : bool) : M unit :=
  emit (EStore WillClose b) ;;; fun '(s, w) => (tt, (setFlags b (isClosed s) s, w)).
Definition setIsClosed (b : bool) : M unit :=
  emit (EStore IsClosed b) ;;; fun '(s, w) => (tt, (setFlags (willClose s) b s, w)).

(** [for _, x := range xs { body }]. *)
Fixpoint forRange {A B} (xs : list A) (body : A -> M B) : M unit :=
  match xs with
  | [] => pureM tt
  | x :: xs' => body x ;;; forRange xs' body
  end.

(** *** Methods *)

Definition GetName (s : SshTunnel) : string := name s.

Definition GetLocalEndpoint (s : SshTunnel) : string :=
  tunneledProtocol s +:+ "://" +:+ localTunnelEndpoint s.

Definition GetRemoteEndpoint (s : SshTunnel) : string :=
  tunneledProtocol s +:+ "://" +:+ remoteEndpoint s.

(** The [for] loop of [Start] over the outcomes of [listener.Accept] seen
    so far.  The loop has no exit: after the last outcome it is waiting in
    the next [Accept], and the deferred [listener.Close()] never runs. *)
Fixpoint acceptLoop (outcomes : list (result nat)) : M unit :=
  match outcomes with
  | [] => pureM tt
  | a :: outcomes' =>
      Infof "[*] Listening on local tunnel endpoint" ;;;
      emit EAccept ;;;
      match a with
      | Err err =>
          Infof ("[!] Error accepting local SSH tunnel connection: " +:+ err)
      | OK localConn =>
          Infof "[*] Accepted connection on local SSH tunnel endpoint" ;;;
          appendLocalConn localConn ;;;
          emit (EGo (GoForwardConnection localConn))
      end ;;;
      acceptLoop outcomes'
  end.

Definition takeIncoming : M (list (result nat)) := fun '(s, w) =>
  (incoming w, (s, clearIncoming w)).

(** [Start]. *)
Definition Start : M unit :=
  s <~ getS ;;
  Infof ("Starting local tunnel endpoint at " +:+ localTunnelEndpoint s) ;;;
  Infof ("Setting server tunnel endpoint at " +:+ serverTunnelEndpoint s) ;;;
  Infof ("Setting remote endpoint at " +:+ remoteEndpoint s) ;;;
  lerr <~ netListen (localTunnelEndpoint s) ;;
  match lerr with
  | Some err =>
      Infof ("[!] Error setting SSH tunnel listener: " +:+ err) ;;;
      send false
  | None =>
      send true ;;;
      outcomes <~ takeIncoming ;;
      acceptLoop outcomes
  end.

(** *** [forwarderFunc] and the variable [err] that it shares

    [forwarderFunc] is a closure of [forwardConnection].  Its statement
    [_, err = io.Copy(writer, reader)] assigns, with a plain [=], the
    [err] that [forwardConnection] declared, and the test [err != nil]
    and the call [err.Error()] read it again.  The two copy tasks of a
    pipeline therefore write and read one variable, without any
    synchronisation: between the assignment of one task and its test the
    other task may assign.  So the closure is embedded statement by
    statement, over the content of that variable, and the two tasks of a
    pipeline are run under a schedule. *)

(** Where a copy task stands.  [AtDeferReader] and [AtDeferWriter] say
    whether the deferred calls run because the task panicked. *)
Inductive Pc :=
| InCopy           (* in io.Copy(writer, reader) *)
| AtTest           (* err is assigned; next: err != nil *)
| AtFlag           (* next: !s.willClose *)
| AtLog            (* next: err.Error() and logger.Infof *)
| AtCloseLocal     (* next: localConn.Close() *)
| AtCloseRemote    (* next: remoteConn.Close() *)
| AtCloseServer    (* next: serverConn.Close() *)
| AtSetClosed      (* next: s.isClosed = true *)
| AtDeferReader (panicking : bool)   (* next: the deferred reader.Close() *)
| AtDeferWriter (panicking : bool)   (* next: the deferred writer.Close() *)
| Returned
| Panicked.

(** One statement of [forwarderFunc(writer, reader)].  [err] is the
    content of the shared variable when the statement runs; the statement
    returns where the task stands afterwards and the new content.
    [copyErr] is what [io.Copy] returns when it ends: [None] at end of
    stream, the error otherwise.  [err.Error()] on a nil [err] is a nil
    dereference: the task panics, its deferred calls run, and the program
    ends. *)
Definition forwarderStep (localConn remoteConn serverConn : nat)
    (writer reader : nat) (copyErr : option string)
    (pc : Pc) (err : option string) : M (Pc * option string) :=
  match pc with
  | InCopy =>
      emit (ECopy writer reader) ;;;
      pureM (AtTest, copyErr)
  | AtTest =>
      pureM (match err with Some _ => AtFlag | None => AtDeferReader false end, err)
  | AtFlag =>
      s <~ getS ;;
      pureM (if negb (willClose s) then AtLog else AtCloseLocal, err)
  | AtLog =>
      match err with
      | Some e =>
          Infof ("[!] I/O copy error when forwarding through tunnel: " +:+ e) ;;;
          pureM (AtCloseLocal, err)
      | None => pureM (AtDeferReader true, err)
      end
  | AtCloseLocal => Close (NetConn localConn) ;;; pureM (AtCloseRemote, err)
  | AtCloseRemote => Close (NetConn remoteConn) ;;; pureM (AtCloseServer, err)
  | AtCloseServer => Close (SshClient serverConn) ;;; pureM (AtSetClosed, err)
  | AtSetClosed => setIsClosed true ;;; pureM (AtDeferReader false, err)
  | AtDeferReader panicking =>
      Close (NetConn reader) ;;; pureM (AtDeferWriter panicking, err)
  | AtDeferWriter panicking =>
      Close (NetConn writer) ;;; pureM (if panicking then Panicked else Returned, err)
  | Returned => pureM (Returned, err)
  | Panicked => pureM (Panicked, err)
  end.

(** [n] statements of one task in a row: nothing else assigns [err] in
    between. *)
Fixpoint forwarderSteps (n : nat) (localConn remoteConn serverConn : nat)
    (writer reader : nat) (copyErr : option string)
    (pc : Pc) (err : option string) : M (Pc * option string) :=
  match n with
  | O => pureM (pc, err)
  | S n' =>
      r <~ forwarderStep localConn remoteConn serverConn writer reader copyErr pc err ;;
      forwarderSteps n' localConn remoteConn serverConn writer reader copyErr (fst r) (snd r)
  end.

(** [forwarderFunc] run from the return of [io.Copy] to its end with no
    assignment by the other task in between: the ten statements of its
    longest path.  [err] is nil when the task is started. *)
Definition forwarderFunc (localConn remoteConn serverConn : nat)
    (writer reader : nat) (copyErr : option string) : M Pc :=
  r <~ forwarderSteps 10 localConn remoteConn serverConn writer reader copyErr InCopy None ;;
  pureM (fst r).

(** The two copy tasks of a pipeline, in the order of the [go] statements:
    [forwarderFunc(localConn, remoteConn)] and
    [forwarderFunc(remoteConn, localConn)]. *)
Inductive Side := First | Second.

(** A pipeline's copy tasks and the [err] they share. *)
Record Pipeline := {
  pcFirst : Pc;
  pcSecond : Pc;
  errVar : option string
}.

Definition started : Pipeline :=
  {| pcFirst := InCopy; pcSecond := InCopy; errVar := None |}.

Definition isPanicked (pc : Pc) : bool :=
  match pc with Panicked => true | _ => false end.

(** The next statement of one of the two tasks. *)
Definition copyTaskStep (localConn remoteConn serverConn : nat)
    (copyErr1 copyErr2 : option string) (side : Side) (p : Pipeline) : M Pipeline :=
  match side with
  | First =>
      r <~ forwarderStep localConn remoteConn serverConn localConn remoteConn
             copyErr1 (pcFirst p) (errVar p) ;;
      pureM {| pcFirst := fst r; pcSecond := pcSecond p; errVar := snd r |}
  | Second =>
      r <~ forwarderStep localConn remoteConn serverConn remoteConn localConn
             copyErr2 (pcSecond p) (errVar p) ;;
      pureM {| pcFirst := pcFirst p; pcSecond := fst r; errVar := snd r |}
  end.

(** The two tasks under a schedule: each entry lets one task run its next
    statement.  An unrecovered panic ends the program, so nothing runs
    after it. *)
Fixpoint copyTasks (localConn remoteConn serverConn : nat)
    (copyErr1 copyErr2 : option string) (sched : list Side) (p : Pipeline)
  : M Pipeline :=
  match sched with
  | [] => pureM p
  | side :: sched' =>
      if (isPanicked (pcFirst p) || isPanicked (pcSecond p))%bool then pureM p
      else
        p' <~ copyTaskStep localConn remoteConn serverConn copyErr1 copyErr2 side p ;;
        copyTasks localConn remoteConn serverConn copyErr1 copyErr2 sched' p'
  end.

(** [forwardConnection], up to the two [go] statements.  [sshDial] and
    [remoteDial] are the outcomes of [ssh.Dial] and of the session's
    [Dial]. *)
Definition forwardConnection (localConn : nat)
    (sshDial remoteDial : result nat) : M unit :=
  Infof "[*] Forwarding connection to server" ;;;
  Infof "[*] try to connect to ssh server" ;;;
  s <~ getS ;;
  emit (ESshDial (serverTunnelEndpoint s)) ;;;
  match sshDial with
  | Err err =>
      Infof ("[!] Error connecting to server SSH endpoint: " +:+ err) ;;;
      Close (NetConn localConn) ;;;
      pureM tt
  | OK serverConn =>
      appendSshConn serverConn ;;;
      Infof "[*] try to connect to final endpoint by ssh tunnel" ;;;
      s <~ getS ;;
      emit (EDial serverConn (remoteEndpoint s)) ;;;
      match remoteDial with
      | Err err =>
          Infof ("[!] Error connecting to remote endpoint: " +:+ err) ;;;
          Close (NetConn localConn) ;;;
          Close (SshClient serverConn) ;;;
          pureM tt
      | OK remoteConn =>
          appendRemoteConn remoteConn ;;;
          Infof "[*] Opened remote connection through tunnel, start forward traffic" ;;;
          emit (EGo (GoForwarder localConn remoteConn)) ;;;
          emit (EGo (GoForwarder remoteConn localConn))
      end
  end.

(** [Stop]. *)
Definition Stop : M unit :=
  Infof "close conns established by tunnl" ;;;
  setWillClose true ;;;
  (s <~ getS ;; forRange (localConns s) (fun conn => Close (NetConn conn))) ;;;
  (s <~ getS ;; forRange (sshConns s) (fun client => Close (SshClient client))) ;;;
  (s <~ getS ;; forRange (remoteConns s) (fun conn => Close (NetConn conn))) ;;;
  setIsClosed true.

(** *** Observations used in the statements *)

(** The handles an engine tracks, in the order in which [Stop] visits its
    three collections. *)
Definition tracked (s : SshTunnel) : list Handle :=
  ((NetConn <$> localConns s) ++ (SshClient <$> sshConns s)
   ++ (NetConn <$> remoteConns s))%list.

(** The events added to the trace between two worlds. *)
Definition emitted (w w' : World) : list Event :=
  drop (length (trace w)) (trace w').

(** The world after [Close] has been called on [hs], one after the other. *)
Fixpoint closeAll (hs : list Handle) (w : World) : World :=
  match hs with
  | [] => w
  | h :: hs' => closeAll hs' (markClosed h (log [EClose h] w))
  end.

End Ssh.

(** [SshTunnel] implements [Tunnel]. *)
#[global] Instance SshTunnel_Tunnel : Tunnel Ssh.SshTunnel := {|
  GetName := Ssh.GetName;
  Start := fun s w => Ssh.exec Ssh.Start (s, w);
  Stop := fun s w => Ssh.exec Ssh.Stop (s, w);
  GetLocalEndpoint := Ssh.GetLocalEndpoint;
  GetRemoteEndpoint := Ssh.GetRemoteEndpoint
|}.

(** The registry after [init]:
    [CommunicationTunnelFactories["SSH"] = SshTunnelFactory]. *)
Definition CommunicationTunnelFactories
  : gmap string (World -> TunnelConfig -> result Ssh.SshTunnel) :=
  <["SSH" := Ssh.SshTunnelFactory]> ∅.

(** ** The rest of the registry *)

(** [GetAvailableCommTunnels], over the registry.  Go visits the keys of a
    map in an order it does not fix; the order of [map_to_list] stands for
    it here, and nothing below depends on it. *)
Definition GetAvailableCommTunnels {F : Type} (factories : gmap string F) : list string :=
  (map_to_list factories).*1.

(** ** Observations on a run of the engine *)

(** The connections that a sequence of [Accept] outcomes hands over. *)
Fixpoint accepted (outcomes : list (result nat)) : list nat :=
  match outcomes with
  | [] => []
  | OK c :: outcomes' => c :: accepted outcomes'
  | Err _ :: outcomes' => accepted outcomes'
  end.

(** The engine with its three collections replaced. *)
Definition setConns (lc sc rc : list nat) (s : Ssh.SshTunnel) : Ssh.SshTunnel :=
  {| Ssh.name := Ssh.name s; Ssh.sshUsername := Ssh.sshUsername s;
     Ssh.sshPassword := Ssh.sshPassword s;
     Ssh.tunneledProtocol := Ssh.tunneledProtocol s;
     Ssh.localTunnelEndpoint := Ssh.localTunnelEndpoint s;
     Ssh.serverTunnelEndpoint := Ssh.serverTunnelEndpoint s;
     Ssh.remoteEndpoint := Ssh.remoteEndpoint s; Ssh.config := Ssh.config s;
     Ssh.localConns := lc; Ssh.sshConns := sc; Ssh.remoteConns := rc;
     Ssh.willClose := Ssh.willClose s; Ssh.isClosed := Ssh.isClosed s |}.

(** The tasks started by [go] statements among some events. *)
Fixpoint spawned (events : list Event) : list Task :=
  match events with
  | [] => []
  | EGo t :: events' => t :: spawned events'
  | _ :: events' => spawned events'
  end.

(** The log lines among some events. *)
Fixpoint logged (events : list Event) : list string :=
  match events with
  | [] => []
  | EInfof format :: events' => format :: logged events'
  | _ :: events' => logged events'
  end.

(** The handles closed among some events. *)
Fixpoint closedBy (events : list Event) : list Handle :=
  match events with
  | [] => []
  | EClose h :: events' => h :: closedBy events'
  | _ :: events' => closedBy events'
  end.

(** What stays of an engine for its whole life: its name, credentials and
    endpoints. *)
Definition sameIdentity (s s' : Ssh.SshTunnel) : Prop :=
  Ssh.name s' = Ssh.name s
  /\ Ssh.sshUsername s' = Ssh.sshUsername s
  /\ Ssh.sshPassword s' = Ssh.sshPassword s
  /\ Ssh.tunneledProtocol s' = Ssh.tunneledProtocol s
  /\ Ssh.localTunnelEndpoint s' = Ssh.localTunnelEndpoint s
  /\ Ssh.serverTunnelEndpoint s' = Ssh.serverTunnelEndpoint s
  /\ Ssh.remoteEndpoint s' = Ssh.remoteEndpoint s
  /\ Ssh.config s' = Ssh.config s.

(** A flag that is raised stays raised. *)
Definition flagsKept (s s' : Ssh.SshTunnel) : Prop :=
  (Ssh.willClose s = true -> Ssh.willClose s' = true)
  /\ (Ssh.isClosed s = true -> Ssh.isClosed s' = true).

(** Nothing closed is open again, and the trace is only added to. *)
Definition worldGrows (w w' : World) : Prop :=
  closed w ⊆ closed w'
  /\ trace w `prefix_of` trace w'
  /\ randDraw w' = randDraw w
  /\ listenErr w' = listenErr w.

(** The three together, between two states of a run. *)
Definition evolves (st st' : Ssh.St) : Prop :=
  sameIdentity (fst st) (fst st')
  /\ flagsKept (fst st) (fst st')
  /\ worldGrows (snd st) (snd st').

(** The events of the [for] loop of [Start] over some [Accept] outcomes. *)
Fixpoint acceptEvents (outcomes : list (result nat)) : list Event :=
  match outcomes with
  | [] => []
  | OK c :: outcomes' =>
      [EInfof "[*] Listening on local tunnel endpoint"; EAccept;
       EInfof "[*] Accepted connection on local SSH tunnel endpoint";
       EGo (GoForwardConnection c)] ++ acceptEvents outcomes'
  | Err err :: outcomes' =>
      [EInfof "[*] Listening on local tunnel endpoint"; EAccept;
       EInfof ("[!] Error accepting local SSH tunnel connection: " +:+ err)]
      ++ acceptEvents outcomes'
  end.

(** *** Histories

    One statement of a goroutine of the engine, with the values the
    goroutine has in hand when it runs it.  Goroutines share the engine
    and the world without any lock, so a run of the program is some
    sequence of such statements, those of the different goroutines mixed
    in any order.  An append to a collection is a read followed by a
    store of the list read, extended: the store is the statement, and the
    list it writes need not extend what the collection holds by then.
    Reads and the assignments of a pipeline's [err] change neither the
    engine nor the world and are left out. *)
Inductive Stmt :=
| SInfof (format : string)              (* logger.Infof(format) *)
| SListen (addr : string)               (* net.Listen("tcp", addr) *)
| SSend (b : bool)                      (* tunnelReady <- b *)
| SAccept                               (* listener.Accept() *)
| STakeIncoming                         (* the outcomes of Accept are taken *)
| SSshDial (addr : string)              (* ssh.Dial *)
| SDial (client : nat) (addr : string)  (* serverConn.Dial *)
| SCopy (writer reader : nat)           (* io.Copy returns *)
| SGo (t : Task)                        (* go t *)
| SClose (h : Handle)                   (* h.Close() *)
| SStoreLocalConns (l : list nat)       (* s.localConns = l *)
| SStoreSshConns (l : list nat)         (* s.sshConns = l *)
| SStoreRemoteConns (l : list nat)      (* s.remoteConns = l *)
| SSetWillClose                         (* s.willClose = true *)
| SSetIsClosed.                         (* s.isClosed = true *)

Definition stmt (x : Stmt) : Ssh.M unit :=
  match x with
  | SInfof format => Ssh.Infof format
  | SListen addr => Ssh.bindM (Ssh.netListen addr) (fun _ => Ssh.pureM tt)
  | SSend b => Ssh.send b
  | SAccept => Ssh.emit EAccept
  | STakeIncoming => Ssh.bindM Ssh.takeIncoming (fun _ => Ssh.pureM tt)
  | SSshDial addr => Ssh.emit (ESshDial addr)
  | SDial client addr => Ssh.emit (EDial client addr)
  | SCopy writer reader => Ssh.emit (ECopy writer reader)
  | SGo t => Ssh.emit (EGo t)
  | SClose h => Ssh.bindM (Ssh.Close h) (fun _ => Ssh.pureM tt)
  | SStoreLocalConns l =>
      Ssh.updConns (fun s => (l, Ssh.sshConns s, Ssh.remoteConns s))
  | SStoreSshConns l =>
      Ssh.updConns (fun s => (Ssh.localConns s, l, Ssh.remoteConns s))
  | SStoreRemoteConns l =>
      Ssh.updConns (fun s => (Ssh.localConns s, Ssh.sshConns s, l))
  | SSetWillClose => Ssh.setWillClose true
  | SSetIsClosed => Ssh.setIsClosed true
  end.

Fixpoint runStmts (xs : list Stmt) (st : Ssh.St) : Ssh.St :=
  match xs with
  | [] => st
  | x :: xs' => runStmts xs' (Ssh.exec (stmt x) st)
  end.

(** A computation whose every run is a sequence of statements. *)
Definition statements {A : Type} (c : Ssh.M A) : Prop :=
  forall st, exists xs, snd (c st) = runStmts xs st.

(** ** Concrete inputs *)

(** The configuration of [example/example.go]. *)
Definition exampleConfig : TunnelConfig :=
  {| Protocol := "SSH";
     TunnelEndpoint := "10.50.122.50:22";
     Username := "root";
     Password := "dbapp#2023";
     RemoteAddr := "192.168.1.111";
     RemotePort := 80;
     TunneledProtocol := "http" |}.

(** A configuration whose SSH server is also the final destination. *)
Definition sameHostConfig : TunnelConfig :=
  {| Protocol := "SSH";
     TunnelEndpoint := "192.168.1.111:22";
     Username := "root";
     Password := "dbapp#2023";
     RemoteAddr := "192.168.1.111";
     RemotePort := 8080;
     TunneledProtocol := "http" |}.

(** A world in which every local port is taken already. *)
Definition busyWorld : World :=
  {| randDraw := 123456789;
     listenErr := fun _ => Some "bind: address already in use";
     incoming := [OK 7%nat];
     closed := ∅;
     tunnelReady := [];
     trace := [] |}.

(** The engine that [SshTunnelFactory] builds from [exampleConfig] there. *)
Definition exampleTunnel : Ssh.SshTunnel :=
  {| Ssh.name := "SSH";
     Ssh.sshUsername := "root";
     Ssh.sshPassword := "dbapp#2023";
     Ssh.tunneledProtocol := "http";
     Ssh.localTunnelEndpoint := "localhost:56789";
     Ssh.serverTunnelEndpoint := "10.50.122.50:22";
     Ssh.remoteEndpoint := "192.168.1.111:80";
     Ssh.config := {| Ssh.User := "root";
                      Ssh.Auth := [Ssh.PasswordAuth "dbapp#2023"];
                      Ssh.HostKeyCallback := Ssh.InsecureIgnoreHostKey |};
     Ssh.localConns := [];
     Ssh.sshConns := [];
     Ssh.remoteConns := [];
     Ssh.willClose := false;
     Ssh.isClosed := false |}.

Example split_ex1 : Split "https://10.10.10.10:8888" "://" = ["https"; "10.10.10.10:8888"].
Proof. reflexivity. Qed.
Example split_ex2 : Split "a:b::c:" ":" = ["a"; "b"; ""; "c"; ""].
Proof. reflexivity. Qed.
Example atoi_ex : (Atoi "443", Atoi "-7", Atoi "+", Atoi "4x", Atoi "") = (Some 443, Some (-7), None, None, None).
Proof. reflexivity. Qed.
Example fmt_ex : (fmtInt 50000, fmtInt 0, fmtInt (-12)) = ("50000", "0", "-12").
Proof. reflexivity. Qed.
Example build_ex :
  BuildTunnelConfig "SSH" "10.0.0.1:22" "https://10.10.10.10:8888" "u" "p"
  = OK {| Protocol := "SSH"; TunnelEndpoint := "10.0.0.1:22"; Username := "u";
          Password := "p"; RemoteAddr := "10.10.10.10"; RemotePort := 8888;
          TunneledProtocol := "https" |}.
Proof. reflexivity. Qed.
Example build_ex2 :
  BuildTunnelConfig "SSH" "10.0.0.1:22" "10.10.10.10" "u" "p"
  = OK {| Protocol := "SSH"; TunnelEndpoint := "10.0.0.1:22"; Username := "u";
          Password := "p"; RemoteAddr := "10.10.10.10"; RemotePort := 80;
          TunneledProtocol := "http" |}.
Proof. vm_compute. reflexivity. Qed.
Example ep_ex : getEndpointInfo "10.10.10.10" = Err "could not get default port for protocol ".
Proof. vm_compute. reflexivity. Qed.

(** * Properties *)

(** ** Strings and [Split] *)

Section SplitFacts.

Lemma append_cons (a : ascii) (s1 s2 : string) :
  String a s1 +:+ s2 = String a (s1 +:+ s2).
Proof. reflexivity. Qed.

Lemma append_nil (s : string) : "" +:+ s = s.
Proof. reflexivity. Qed.

Lemma append_snoc (cur : string) (c : ascii) (s : string) :
  (cur +:+ String c "") +:+ s = cur +:+ String c s.
Proof.
  induction cur as [|a cur IH]; [reflexivity |].
  rewrite !append_cons. f_equal. exact IH.
Qed.

Lemma append_empty_r (s : string) : s +:+ "" = s.
Proof.
  induction s as [|a s IH]; [reflexivity |].
  rewrite append_cons. f_equal. exact IH.
Qed.

Lemma splitFrom_nonempty (sep s : string) :
  forall skip cur, splitFrom sep skip cur s <> [].
Proof.
  induction s as [|c s IH]; intros skip cur; cbn [splitFrom]; [congruence |].
  destruct skip; [| apply IH].
  destruct (HasPrefix (String c s) sep); [congruence | apply IH].
Qed.

Lemma Split_nonempty (s sep : string) : Split s sep <> [].
Proof. apply splitFrom_nonempty. Qed.

(** A string in which the first byte of the separator does not occur is
    not cut. *)
Lemma splitFrom_absent (c0 : ascii) (sep' s : string) :
  ContainsByte s c0 = false ->
  forall cur, splitFrom (String c0 sep') 0 cur s = [cur +:+ s].
Proof.
  induction s as [|c s IH]; intros Hno cur; cbn [splitFrom ContainsByte HasPrefix] in *.
  - now rewrite append_empty_r.
  - apply orb_false_elim in Hno as [Hc Hs].
    rewrite Ascii.eqb_sym, Hc. rewrite (IH Hs). now rewrite append_snoc.
Qed.

Lemma Split_absent (c0 : ascii) (sep' s : string) :
  ContainsByte s c0 = false -> Split s (String c0 sep') = [s].
Proof. intros Hno. unfold Split. now rewrite splitFrom_absent. Qed.

(** ["://"] cannot start inside [p] and end in a following ["://"]. *)
Lemma HasPrefix_scheme_overlap (p r : string) :
  Contains p "://" = false ->
  p <> "" ->
  HasPrefix (p +:+ "://" +:+ r) "://" = false.
Proof.
  intros Hc Hne.
  destruct p as [|a p]; [congruence |].
  cbn [Contains] in Hc. apply orb_false_elim in Hc as [Hp _].
  rewrite append_cons. cbn [HasPrefix] in *.
  destruct (Ascii.eqb ":" a); [| reflexivity].
  destruct p as [|b p]; [reflexivity |].
  rewrite append_cons. cbn [HasPrefix] in *.
  destruct (Ascii.eqb "/" b); [| reflexivity].
  destruct p as [|d p]; [reflexivity |].
  rewrite append_cons. cbn [HasPrefix] in *.
  destruct (Ascii.eqb "/" d); [discriminate Hp | reflexivity].
Qed.

(** The first cut of [p://r] is after [p] when [p] has no ["://"]. *)
Lemma splitFrom_scheme (p r : string) :
  Contains p "://" = false ->
  forall cur,
    splitFrom "://" 0 cur (p +:+ "://" +:+ r)
    = (cur +:+ p) :: splitFrom "://" 0 "" r.
Proof.
  induction p as [|a p IH]; intros Hc cur.
  - rewrite !append_cons, !append_nil. cbn. now rewrite append_empty_r.
  - pose proof (HasPrefix_scheme_overlap (String a p) r Hc ltac:(discriminate)) as Hpre.
    rewrite append_cons in *.
    cbn [splitFrom]. rewrite Hpre.
    cbn [Contains] in Hc. apply orb_false_elim in Hc as [_ Hc].
    rewrite (IH Hc). now rewrite append_snoc.
Qed.

Lemma Split_scheme (p r : string) :
  Contains p "://" = false ->
  Split (p +:+ "://" +:+ r) "://" = p :: Split r "://".
Proof. intros Hc. unfold Split. now rewrite splitFrom_scheme. Qed.

Lemma Contains_scheme_absent (s : string) :
  ContainsByte s ":" = false -> Contains s "://" = false.
Proof.
  induction s as [|c s IH]; intros Hno; [reflexivity |].
  cbn [ContainsByte] in Hno. apply orb_false_elim in Hno as [Hc Hs].
  cbn [Contains HasPrefix]. rewrite Ascii.eqb_sym, Hc. cbn [orb]. auto.
Qed.

End SplitFacts.

(** ** The default port table *)

Lemma defaultPort_http : defaultProtocolPorts !! "http" = Some "80".
Proof. reflexivity. Qed.

Lemma defaultPort_https : defaultProtocolPorts !! "https" = Some "443".
Proof. reflexivity. Qed.

Lemma defaultPort_other (p : string) :
  p <> "http" -> p <> "https" -> defaultProtocolPorts !! p = None.
Proof.
  intros H1 H2. unfold defaultProtocolPorts.
  rewrite lookup_insert_ne by congruence.
  rewrite lookup_insert_ne by congruence.
  apply lookup_empty.
Qed.

(** ** Endpoint parsing *)

Section Parsing.

Lemma getTunneledProtocolAndRemoteAddr_bare (host : string) :
  ContainsByte host ":" = false ->
  getTunneledProtocolAndRemoteAddr host = ("http", host).
Proof.
  intros Hno. unfold getTunneledProtocolAndRemoteAddr.
  now rewrite (Split_absent ":" "//" host Hno).
Qed.

Lemma getTunneledProtocolAndRemoteAddr_scheme (p host : string) :
  Contains p "://" = false ->
  ContainsByte host ":" = false ->
  getTunneledProtocolAndRemoteAddr (p +:+ "://" +:+ host) = (p, host).
Proof.
  intros Hp Hno. unfold getTunneledProtocolAndRemoteAddr.
  rewrite (Split_scheme p host Hp).
  now rewrite (Split_absent ":" "//" host Hno).
Qed.

Lemma eqb_empty_false (s : string) : s <> "" -> String.eqb s "" = false.
Proof. intros Hne. now apply String.eqb_neq. Qed.

(** No port in the endpoint and a protocol of the table: the table's
    port, provided there is a host. *)
Lemma splitAddrAndPort_table (host protocol portStr : string) (portNum : Z) :
  ContainsByte host ":" = false ->
  host <> "" ->
  defaultProtocolPorts !! protocol = Some portStr ->
  portStr <> "" ->
  Atoi portStr = Some portNum ->
  splitAddrAndPort host protocol = OK (host, portNum).
Proof.
  intros Hno Hne Htab Hps Hatoi. unfold splitAddrAndPort.
  rewrite (Split_absent ":" "" host Hno), Htab. cbn [mbind result_bind].
  now rewrite (eqb_empty_false _ Hne), (eqb_empty_false _ Hps), Hatoi.
Qed.

(** No port in the endpoint and a protocol outside the table: an error,
    whatever the host. *)
Lemma splitAddrAndPort_unlisted (host protocol : string) :
  ContainsByte host ":" = false ->
  defaultProtocolPorts !! protocol = None ->
  splitAddrAndPort host protocol
  = Err ("could not get default port for protocol " +:+ protocol).
Proof.
  intros Hno Htab. unfold splitAddrAndPort.
  now rewrite (Split_absent ":" "" host Hno), Htab.
Qed.

End Parsing.

(** C6, as the claim states it, fails: an endpoint without protocol and
    without port is not resolved to port 80; [getEndpointInfo] keeps the
    protocol empty, and the empty protocol has no default port. *)
Lemma getEndpointInfo_bare_host_not_80 :
  ContainsByte "10.10.10.10" ":" = false /\
  Contains "10.10.10.10" "://" = false /\
  getEndpointInfo "10.10.10.10" = Err "could not get default port for protocol " /\
  ~ (exists protocol addr, getEndpointInfo "10.10.10.10" = OK (protocol, addr, "80")).
Proof.
  repeat split; try reflexivity.
  intros (protocol & addr & H). vm_compute in H. discriminate H.
Qed.

(** C6, amended: for every endpoint string with no protocol prefix and no
    port suffix (no [':'] occurs in it), [getEndpointInfo] leaves the
    protocol empty, finds no default port for it and returns the error
    "could not get default port for protocol ". *)
Theorem getEndpointInfo_bare_host_fails (endpointAddr : string) :
  ContainsByte endpointAddr ":" = false ->
  getEndpointInfo endpointAddr = Err "could not get default port for protocol ".
Proof.
  intros Hno. unfold getEndpointInfo.
  rewrite (Split_absent ":" "//" endpointAddr Hno).
  rewrite (Split_absent ":" "" endpointAddr Hno).
  reflexivity.
Qed.

Lemma getEndpointInfo_bare_host_fails_witness :
  ContainsByte "192.168.10.1" ":" = false /\
  getEndpointInfo "192.168.10.1" = Err "could not get default port for protocol ".
Proof.
  split; [reflexivity |].
  apply (getEndpointInfo_bare_host_fails "192.168.10.1"). reflexivity.
Defined.

(** C7, as the claim states it, fails: a destination that omits the port
    and has protocol "http" but no host is refused, not given port 80. *)
Lemma BuildTunnelConfig_no_host_not_80 :
  ContainsByte "" ":" = false /\
  getTunneledProtocolAndRemoteAddr "http://" = ("http", "") /\
  BuildTunnelConfig "SSH" "10.50.122.50:22" "http://" "root" "secret"
  = Err "empty address/hostname provided." /\
  ~ (exists cfg,
        BuildTunnelConfig "SSH" "10.50.122.50:22" "http://" "root" "secret" = OK cfg
        /\ RemotePort cfg = 80).
Proof.
  repeat split; try reflexivity.
  intros (cfg & H & _). vm_compute in H. discriminate H.
Qed.

(** C7, amended: for every destination string passed to
    [BuildTunnelConfig] that omits a port and has a non-empty host, the
    resulting [RemotePort] is 80 if the protocol prefix is "http" or
    absent and 443 if it is "https"; for any other protocol prefix
    [BuildTunnelConfig] returns a configuration error, with or without a
    host. *)
Theorem BuildTunnelConfig_default_port
    (protocol tunnelEndpoint user password host : string) :
  ContainsByte host ":" = false ->
  (host <> "" ->
   BuildTunnelConfig protocol tunnelEndpoint host user password
   = OK {| Protocol := protocol; TunnelEndpoint := tunnelEndpoint;
           Username := user; Password := password;
           RemoteAddr := host; RemotePort := 80; TunneledProtocol := "http" |}
   /\
   BuildTunnelConfig protocol tunnelEndpoint ("http://" +:+ host) user password
   = OK {| Protocol := protocol; TunnelEndpoint := tunnelEndpoint;
           Username := user; Password := password;
           RemoteAddr := host; RemotePort := 80; TunneledProtocol := "http" |}
   /\
   BuildTunnelConfig protocol tunnelEndpoint ("https://" +:+ host) user password
   = OK {| Protocol := protocol; TunnelEndpoint := tunnelEndpoint;
           Username := user; Password := password;
           RemoteAddr := host; RemotePort := 443; TunneledProtocol := "https" |})
  /\
  (forall p : string,
      Contains p "://" = false -> p <> "http" -> p <> "https" ->
      BuildTunnelConfig protocol tunnelEndpoint (p +:+ "://" +:+ host) user password
      = Err ("could not get default port for protocol " +:+ p)).
Proof.
  intros Hno. split.
  - intros Hne.
    assert (H80 : splitAddrAndPort host "http" = OK (host, 80)).
    { apply (splitAddrAndPort_table host "http" "80"); done. }
    assert (H443 : splitAddrAndPort host "https" = OK (host, 443)).
    { apply (splitAddrAndPort_table host "https" "443"); done. }
    unfold BuildTunnelConfig. repeat split.
    + now rewrite (getTunneledProtocolAndRemoteAddr_bare host Hno), H80.
    + change ("http://" +:+ host) with ("http" +:+ "://" +:+ host).
      now rewrite (getTunneledProtocolAndRemoteAddr_scheme "http" host eq_refl Hno), H80.
    + change ("https://" +:+ host) with ("https" +:+ "://" +:+ host).
      now rewrite (getTunneledProtocolAndRemoteAddr_scheme "https" host eq_refl Hno), H443.
  - intros p Hp H1 H2. unfold BuildTunnelConfig.
    rewrite (getTunneledProtocolAndRemoteAddr_scheme p host Hp Hno).
    now rewrite (splitAddrAndPort_unlisted host p Hno (defaultPort_other p H1 H2)).
Qed.

Lemma BuildTunnelConfig_default_port_witness :
  ContainsByte "192.168.1.111" ":" = false /\
  BuildTunnelConfig "SSH" "10.50.122.50:22" "https://192.168.1.111" "root" "secret"
  = OK {| Protocol := "SSH"; TunnelEndpoint := "10.50.122.50:22";
          Username := "root"; Password := "secret";
          RemoteAddr := "192.168.1.111"; RemotePort := 443;
          TunneledProtocol := "https" |} /\
  BuildTunnelConfig "SSH" "10.50.122.50:22" "ftp://192.168.1.111" "root" "secret"
  = Err "could not get default port for protocol ftp".
Proof.
  pose proof (BuildTunnelConfig_default_port
                "SSH" "10.50.122.50:22" "root" "secret" "192.168.1.111" eq_refl)
    as [Hhost Hother].
  split; [reflexivity |]. split.
  - apply Hhost. discriminate.
  - apply (Hother "ftp"); [reflexivity | discriminate | discriminate].
Defined.

(** ** The engine *)

Section Engine.
Import Ssh.
Local Open Scope list_scope.

Lemma World_eq_fields (w w' : World) :
  randDraw w = randDraw w' -> listenErr w = listenErr w' ->
  incoming w = incoming w' -> closed w = closed w' ->
  tunnelReady w = tunnelReady w' -> trace w = trace w' -> w = w'.
Proof. destruct w, w'; cbn; intros; subst; reflexivity. Qed.

Lemma trace_closeAll (hs : list Handle) :
  forall w, trace (closeAll hs w) = trace w ++ (EClose <$> hs).
Proof.
  induction hs as [|h hs IH]; intros w; cbn [closeAll fmap list_fmap].
  - now rewrite app_nil_r.
  - rewrite IH. cbn. now rewrite <- app_assoc.
Qed.

Lemma closed_closeAll (hs : list Handle) :
  forall w, closed (closeAll hs w) = list_to_set hs ∪ closed w.
Proof.
  induction hs as [|h hs IH]; intros w; cbn [closeAll list_to_set].
  - now rewrite (left_id_L ∅ (∪)).
  - rewrite IH. cbn.
    rewrite (comm_L (∪) {[h]} (list_to_set hs)).
    now rewrite <- (assoc_L (∪)).
Qed.

Lemma closeAll_frame (hs : list Handle) :
  forall w,
    randDraw (closeAll hs w) = randDraw w
    /\ listenErr (closeAll hs w) = listenErr w
    /\ incoming (closeAll hs w) = incoming w
    /\ tunnelReady (closeAll hs w) = tunnelReady w.
Proof.
  induction hs as [|h hs IH]; intros w; cbn [closeAll]; [tauto |].
  destruct (IH (markClosed h (log [EClose h] w))) as (-> & -> & -> & ->).
  cbn. tauto.
Qed.

Lemma closeAll_app (hs hs' : list Handle) :
  forall w, closeAll (hs ++ hs') w = closeAll hs' (closeAll hs w).
Proof. induction hs as [|h hs IH]; intros w; cbn; [reflexivity | apply IH]. Qed.

Lemma emitted_app (w w' : World) (events : list Event) :
  trace w' = trace w ++ events -> emitted w w' = events.
Proof. intros H. unfold emitted. rewrite H. apply drop_app_length. Qed.

(** A [range] loop that closes each handle of a collection. *)
Lemma forRange_Close (mk : nat -> Handle) (xs : list nat) :
  forall (s : SshTunnel) (w : World),
    forRange xs (fun c => Close (mk c)) (s, w) = (tt, (s, closeAll (mk <$> xs) w)).
Proof.
  induction xs as [|x xs IH]; intros s w; [reflexivity |].
  cbn [forRange]. unfold bindM at 1. unfold Close at 1, bindM, emit.
  rewrite IH. reflexivity.
Qed.

(** What [Stop] does, in one equation. *)
Lemma Stop_run (s : SshTunnel) (w : World) :
  exec Stop (s, w)
  = (setFlags true true s,
     log [EStore IsClosed true]
       (closeAll (tracked s)
          (log [EStore WillClose true]
             (log [EInfof "close conns established by tunnl"] w)))).
Proof.
  unfold exec, Stop, Infof, setWillClose, setIsClosed, getS, bindM, emit.
  cbn [fst snd]. rewrite !forRange_Close.
  unfold tracked. rewrite !closeAll_app. reflexivity.
Qed.

(** [Start] when [net.Listen] fails. *)
Lemma Start_run_bind_failure (s : SshTunnel) (w : World) (err : string) :
  listenErr w (localTunnelEndpoint s) = Some err ->
  exec Start (s, w)
  = (s,
     deliver false
       (log [EInfof ("Starting local tunnel endpoint at " +:+ localTunnelEndpoint s);
             EInfof ("Setting server tunnel endpoint at " +:+ serverTunnelEndpoint s);
             EInfof ("Setting remote endpoint at " +:+ remoteEndpoint s);
             EListen (localTunnelEndpoint s);
             EInfof ("[!] Error setting SSH tunnel listener: " +:+ err);
             ESend false] w)).
Proof.
  intros Hbind.
  unfold exec, Start, send, netListen, Infof, getS, bindM, emit.
  cbn [fst snd log listenErr]. rewrite Hbind. cbn [snd].
  f_equal. apply World_eq_fields; cbn; try reflexivity.
  now rewrite <- !app_assoc.
Qed.

End Engine.

(** No event of an explicit list is the one looked for. *)
Ltac no_such_event H :=
  repeat (destruct H as [H | H]; [discriminate H |]); destruct H.

(** C2, as the code has it: a copy task whose [io.Copy] ended with an
    I/O error can leave the error unlogged and the pipeline standing,
    although [willClose] is false.  The two copy tasks of a pipeline
    assign the same [err]: when the other task's [io.Copy] returns nil
    after this task's assignment and before its test, the test reads nil.
    The task then returns through its deferred calls only: nothing is
    logged, the SSH session is left open, and the engine, [isClosed]
    included, is as it was. *)
Theorem copy_error_lost_to_sibling
    (s : Ssh.SshTunnel) (w : World)
    (localConn remoteConn serverConn : nat) (err : string) :
  Ssh.willClose s = false ->
  SshClient serverConn ∉ closed w ->
  let run := Ssh.copyTasks localConn remoteConn serverConn (Some err) None
               [Ssh.First; Ssh.Second; Ssh.First; Ssh.First; Ssh.First]
               Ssh.started (s, w) in
  Ssh.pcFirst (fst run) = Ssh.Returned
  /\ Ssh.emitted w (snd (snd run))
     = [ECopy localConn remoteConn; ECopy remoteConn localConn;
        EClose (NetConn remoteConn); EClose (NetConn localConn)]
  /\ logged (Ssh.emitted w (snd (snd run))) = []
  /\ (SshClient serverConn ∉ closed (snd (snd run)))
  /\ fst (snd run) = s
  /\ Ssh.isClosed (fst (snd run)) = Ssh.isClosed s.
Proof.
  intros Hflag Hopen run. subst run.
  unfold Ssh.copyTasks, Ssh.copyTaskStep, Ssh.forwarderStep, Ssh.started,
    Ssh.Close, Ssh.bindM, Ssh.emit, Ssh.pureM.
  cbn [fst snd Ssh.pcFirst Ssh.pcSecond Ssh.errVar Ssh.isPanicked orb].
  assert (Hem : Ssh.emitted w
                  (markClosed (NetConn localConn)
                     (log [EClose (NetConn localConn)]
                        (markClosed (NetConn remoteConn)
                           (log [EClose (NetConn remoteConn)]
                              (log [ECopy remoteConn localConn]
                                 (log [ECopy localConn remoteConn] w))))))
                = [ECopy localConn remoteConn; ECopy remoteConn localConn;
                   EClose (NetConn remoteConn); EClose (NetConn localConn)]).
  { apply emitted_app. cbn. now rewrite <- !app_assoc. }
  split; [reflexivity |]. split; [exact Hem |]. rewrite Hem.
  split; [reflexivity |]. split; [| split; reflexivity].
  cbn [closed markClosed log]. rewrite !elem_of_union, !elem_of_singleton.
  intros [H | [H | H]]; [discriminate H | discriminate H | exact (Hopen H)].
Qed.

Lemma copy_error_lost_to_sibling_witness :
  let run := Ssh.copyTasks 1 3 2 (Some "connection reset by peer") None
               [Ssh.First; Ssh.Second; Ssh.First; Ssh.First; Ssh.First]
               Ssh.started (exampleTunnel, busyWorld) in
  Ssh.willClose exampleTunnel = false
  /\ Ssh.pcFirst (fst run) = Ssh.Returned
  /\ logged (Ssh.emitted busyWorld (snd (snd run))) = []
  /\ (SshClient 2 ∉ closed (snd (snd run)))
  /\ Ssh.isClosed (fst (snd run)) = false.
Proof.
  intros run. split; [reflexivity |].
  assert (Hopen : SshClient 2 ∉ closed busyWorld) by (cbn; set_solver).
  pose proof (copy_error_lost_to_sibling exampleTunnel busyWorld 1 3 2
                "connection reset by peer" eq_refl Hopen) as H.
  cbv zeta in H. destruct H as (Hpc & _ & Hlog & Hsession & _ & Hflag).
  split; [exact Hpc |]. split; [exact Hlog |]. split; [exact Hsession |].
  exact Hflag.
Defined.

(** C3: [Stop] sets [willClose] before it closes anything, then closes
    every tracked local socket, every tracked SSH session and every
    tracked remote stream, in that order and whatever is closed already,
    and sets [isClosed] at the end. *)
Theorem Stop_closes_in_order (s : Ssh.SshTunnel) (w : World) :
  let st' := Ssh.exec Ssh.Stop (s, w) in
  Ssh.emitted w (snd st')
  = ([EInfof "close conns established by tunnl"; EStore WillClose true]
     ++ (EClose <$> (NetConn <$> Ssh.localConns s))
     ++ (EClose <$> (SshClient <$> Ssh.sshConns s))
     ++ (EClose <$> (NetConn <$> Ssh.remoteConns s))
     ++ [EStore IsClosed true])%list
  /\ (forall pre h post,
         Ssh.emitted w (snd st') = (pre ++ EClose h :: post)%list ->
         In (EStore WillClose true) pre)
  /\ (forall h, In h (Ssh.tracked s) -> h ∈ closed (snd st'))
  /\ Ssh.willClose (fst st') = true
  /\ Ssh.isClosed (fst st') = true.
Proof.
  intros st'. subst st'. rewrite Stop_run. cbn [fst snd].
  assert (Hem : Ssh.emitted w
                  (log [EStore IsClosed true]
                     (Ssh.closeAll (Ssh.tracked s)
                        (log [EStore WillClose true]
                           (log [EInfof "close conns established by tunnl"] w))))
                = ([EInfof "close conns established by tunnl"; EStore WillClose true]
                   ++ (EClose <$> (NetConn <$> Ssh.localConns s))
                   ++ (EClose <$> (SshClient <$> Ssh.sshConns s))
                   ++ (EClose <$> (NetConn <$> Ssh.remoteConns s))
                   ++ [EStore IsClosed true])%list).
  { apply emitted_app. cbn [trace log]. rewrite trace_closeAll. cbn [trace log].
    unfold Ssh.tracked. rewrite !fmap_app, <- !app_assoc. reflexivity. }
  rewrite Hem. repeat split.
  - intros pre h post Heq.
    destruct pre as [|e1 [|e2 pre]]; cbn in Heq.
    + discriminate Heq.
    + injection Heq as _ Heq. discriminate Heq.
    + injection Heq as _ -> _. right. now left.
  - intros h Hin. cbn [closed log]. rewrite closed_closeAll.
    apply elem_of_union_l, elem_of_list_to_set, list_elem_of_In, Hin.
Qed.

(** C4: [Stop] is idempotent.  After a first [Stop], closing a tracked
    handle again is answered with an error value, not with a fault; a
    second [Stop] drops these answers, runs to its end like the first one
    and leaves the flags, the three collections and the set of closed
    handles as the first call left them. *)
Theorem Stop_idempotent (s : Ssh.SshTunnel) (w : World) :
  let st1 := Ssh.exec Ssh.Stop (s, w) in
  let st2 := Ssh.exec Ssh.Stop st1 in
  (forall h, In h (Ssh.tracked s) ->
             fst (Ssh.Close h st1) = Some "use of closed network connection")
  /\ fst st2 = fst st1
  /\ closed (snd st2) = closed (snd st1)
  /\ tunnelReady (snd st2) = tunnelReady (snd st1)
  /\ incoming (snd st2) = incoming (snd st1)
  /\ Ssh.emitted (snd st1) (snd st2) = Ssh.emitted w (snd st1).
Proof.
  intros st1 st2. subst st2 st1. rewrite (Stop_run s w).
  split.
  { intros h Hin. unfold Ssh.Close, Ssh.bindM, Ssh.emit. cbn [fst snd closed log].
    destruct (decide _) as [_ | Hout]; [reflexivity |].
    exfalso. apply Hout. rewrite closed_closeAll.
    apply elem_of_union_l, elem_of_list_to_set, list_elem_of_In, Hin. }
  rewrite Stop_run. cbn [fst snd].
  change (Ssh.tracked (Ssh.setFlags true true s)) with (Ssh.tracked s).
  split; [reflexivity |].
  split.
  { repeat (cbn [closed log]; rewrite ?closed_closeAll).
    rewrite (assoc_L (∪)). now rewrite (idemp_L (∪)). }
  split.
  { repeat (cbn [tunnelReady log];
            rewrite ?(proj2 (proj2 (proj2 (closeAll_frame _ _))))).
    reflexivity. }
  split.
  { repeat (cbn [incoming log];
            rewrite ?(proj1 (proj2 (proj2 (closeAll_frame _ _))))).
    reflexivity. }
  transitivity ([EInfof "close conns established by tunnl"; EStore WillClose true]
                ++ (EClose <$> Ssh.tracked s) ++ [EStore IsClosed true])%list.
  - apply emitted_app. repeat (cbn [trace log]; rewrite ?trace_closeAll).
    rewrite <- !app_assoc. reflexivity.
  - symmetry. apply emitted_app. repeat (cbn [trace log]; rewrite ?trace_closeAll).
    rewrite <- !app_assoc. reflexivity.
Qed.

(** C5: when binding the local listener fails, [Start] sends [false] on
    the readiness channel and returns: no call of [Accept], no pipeline
    started, no collection appended to, no pending connection taken. *)
Theorem Start_bind_failure (s : Ssh.SshTunnel) (w : World) (err : string) :
  listenErr w (Ssh.localTunnelEndpoint s) = Some err ->
  let st' := Ssh.exec Ssh.Start (s, w) in
  tunnelReady (snd st') = (tunnelReady w ++ [false])%list
  /\ Ssh.emitted w (snd st')
     = [EInfof ("Starting local tunnel endpoint at " +:+ Ssh.localTunnelEndpoint s);
        EInfof ("Setting server tunnel endpoint at " +:+ Ssh.serverTunnelEndpoint s);
        EInfof ("Setting remote endpoint at " +:+ Ssh.remoteEndpoint s);
        EListen (Ssh.localTunnelEndpoint s);
        EInfof ("[!] Error setting SSH tunnel listener: " +:+ err);
        ESend false]
  /\ ~ In EAccept (Ssh.emitted w (snd st'))
  /\ (forall t, ~ In (EGo t) (Ssh.emitted w (snd st')))
  /\ fst st' = s
  /\ incoming (snd st') = incoming w
  /\ closed (snd st') = closed w.
Proof.
  intros Hbind st'. subst st'. rewrite (Start_run_bind_failure s w err Hbind).
  cbn [fst snd]. erewrite emitted_app by reflexivity.
  repeat split.
  - intros Hin. no_such_event Hin.
  - intros t Hin. no_such_event Hin.
Qed.

Lemma Start_bind_failure_witness :
  listenErr busyWorld (Ssh.localTunnelEndpoint exampleTunnel)
  = Some "bind: address already in use"
  /\ tunnelReady (snd (Ssh.exec Ssh.Start (exampleTunnel, busyWorld))) = [false]
  /\ fst (Ssh.exec Ssh.Start (exampleTunnel, busyWorld)) = exampleTunnel
  /\ incoming (snd (Ssh.exec Ssh.Start (exampleTunnel, busyWorld))) = [OK 7%nat].
Proof.
  pose proof (Start_bind_failure exampleTunnel busyWorld
                "bind: address already in use" eq_refl) as H.
  cbv zeta in H. destruct H as (Hready & _ & _ & _ & Heng & Hinc & _).
  split; [reflexivity |]. split; [exact Hready |]. split; [exact Heng | exact Hinc].
Defined.

(** ** Construction *)

Lemma getRandomListeningPort_range (v : Z) :
  Ssh.minLocalPort <= Ssh.getRandomListeningPort v < Ssh.maxLocalPort.
Proof.
  unfold Ssh.getRandomListeningPort, Intn, Ssh.minLocalPort, Ssh.maxLocalPort.
  pose proof (Z.mod_pos_bound v (65000 - 50000) ltac:(lia)). lia.
Qed.

(** C8: the local listening port of every constructed engine lies in
    [50000, 65000): 50000 included, 65000 excluded. *)
Theorem local_port_in_range (w : World) (cfg : TunnelConfig) (t : Ssh.SshTunnel) :
  Ssh.SshTunnelFactory w cfg = OK t ->
  exists port : Z,
    port = Ssh.getRandomListeningPort (randDraw w)
    /\ 50000 <= port < 65000
    /\ Ssh.localTunnelEndpoint t = "localhost:" +:+ fmtInt port.
Proof.
  unfold Ssh.SshTunnelFactory. intros Hmk.
  destruct (Ssh.getSSHServerAddrAndPort cfg) as [[addr port] | e];
    cbn in Hmk; [| discriminate Hmk].
  injection Hmk as <-. cbn [Ssh.localTunnelEndpoint].
  exists (Ssh.getRandomListeningPort (randDraw w)).
  split; [reflexivity |]. split; [| reflexivity].
  apply getRandomListeningPort_range.
Qed.

Lemma local_port_in_range_witness :
  Ssh.SshTunnelFactory busyWorld exampleConfig = OK exampleTunnel
  /\ exists port : Z,
       port = Ssh.getRandomListeningPort (randDraw busyWorld)
       /\ 50000 <= port < 65000
       /\ Ssh.localTunnelEndpoint exampleTunnel = "localhost:" +:+ fmtInt port.
Proof.
  split; [reflexivity |].
  apply (local_port_in_range busyWorld exampleConfig exampleTunnel). reflexivity.
Defined.

(** The session's [Dial] of a pipeline goes to the engine's stored remote
    endpoint. *)
Lemma forwardConnection_dials
    (s : Ssh.SshTunnel) (w : World) (localConn serverConn : nat)
    (remoteDial : result nat) :
  In (EDial serverConn (Ssh.remoteEndpoint s))
     (Ssh.emitted w
        (snd (Ssh.exec (Ssh.forwardConnection localConn (OK serverConn) remoteDial)
                (s, w)))).
Proof.
  unfold Ssh.exec, Ssh.forwardConnection, Ssh.appendSshConn, Ssh.appendRemoteConn,
    Ssh.updConns, Ssh.Close, Ssh.Infof, Ssh.getS, Ssh.bindM, Ssh.emit, Ssh.pureM.
  destruct remoteDial as [remoteConn | e]; cbn;
    unfold Ssh.emitted; cbn; rewrite <- !app_assoc, drop_app_length; cbn; tauto.
Qed.

(** C9: when the address of the SSH server is the configured final remote
    address, the engine stores "localhost" as the final host: its remote
    endpoint, what [GetRemoteEndpoint] shows and what a pipeline dials
    through the session are localhost:RemotePort. *)
Theorem same_host_goes_to_localhost
    (w : World) (cfg : TunnelConfig) (t : Ssh.SshTunnel)
    (sshServerAddr : string) (sshPort : Z) :
  Ssh.getSSHServerAddrAndPort cfg = OK (sshServerAddr, sshPort) ->
  sshServerAddr = RemoteAddr cfg ->
  Ssh.SshTunnelFactory w cfg = OK t ->
  Ssh.remoteEndpoint t = "localhost" +:+ ":" +:+ fmtInt (RemotePort cfg)
  /\ Ssh.GetRemoteEndpoint t
     = TunneledProtocol cfg +:+ "://" +:+ "localhost" +:+ ":" +:+ fmtInt (RemotePort cfg)
  /\ (forall (s : Ssh.SshTunnel) (w' : World) (localConn serverConn : nat)
             (remoteDial : result nat),
         Ssh.remoteEndpoint s = Ssh.remoteEndpoint t ->
         In (EDial serverConn ("localhost" +:+ ":" +:+ fmtInt (RemotePort cfg)))
            (Ssh.emitted w'
               (snd (Ssh.exec
                       (Ssh.forwardConnection localConn (OK serverConn) remoteDial)
                       (s, w'))))).
Proof.
  intros Haddr Hsame Hmk. unfold Ssh.SshTunnelFactory in Hmk.
  rewrite Haddr in Hmk. cbn in Hmk. injection Hmk as <-.
  assert (Hrel : Ssh.getRelativeRemoteAddr sshServerAddr (RemoteAddr cfg) = "localhost").
  { unfold Ssh.getRelativeRemoteAddr. rewrite Hsame. now rewrite String.eqb_refl. }
  unfold Ssh.GetRemoteEndpoint. cbn [Ssh.remoteEndpoint Ssh.tunneledProtocol].
  rewrite Hrel. repeat split.
  intros s w' localConn serverConn remoteDial <-.
  apply forwardConnection_dials.
Qed.

Lemma same_host_goes_to_localhost_witness :
  Ssh.getSSHServerAddrAndPort sameHostConfig = OK ("192.168.1.111", 22)
  /\ "192.168.1.111" = RemoteAddr sameHostConfig
  /\ match Ssh.SshTunnelFactory busyWorld sameHostConfig with
     | OK t => Ssh.GetRemoteEndpoint t = "http://localhost:8080"
     | Err _ => False
     end.
Proof.
  split; [reflexivity |]. split; [reflexivity |].
  destruct (Ssh.SshTunnelFactory busyWorld sameHostConfig) as [t | e] eqn:Hmk;
    [| discriminate Hmk].
  exact (proj1 (proj2 (same_host_goes_to_localhost
                         busyWorld sameHostConfig t "192.168.1.111" 22
                         eq_refl eq_refl Hmk))).
Defined.

(** ** Fast start *)

Lemma SSH_registered :
  CommunicationTunnelFactories !! "SSH" = Some Ssh.SshTunnelFactory.
Proof. unfold CommunicationTunnelFactories. apply lookup_insert_eq. Qed.

(** C1 does not hold of the code.  [FastStartTunnel] does wait for the
    readiness value, but drops it: when the engine is built and binding
    its listener fails, [Start] sends [false] and the caller still gets
    the tunnel back with a nil error; no bind error is surfaced. *)
Theorem FastStartTunnel_drops_bind_failure
    (w : World) (cfg : TunnelConfig) (t : Ssh.SshTunnel) (err : string) :
  Protocol cfg = "SSH" ->
  Ssh.SshTunnelFactory w cfg = OK t ->
  listenErr w (Ssh.localTunnelEndpoint t) = Some err ->
  exists w' : World,
    FastStartTunnel CommunicationTunnelFactories cfg w = Some (OK t, w')
    /\ tunnelReady w' = [false]
    /\ Ssh.emitted w w'
       = [EGo GoStart;
          EInfof ("Starting local tunnel endpoint at " +:+ Ssh.localTunnelEndpoint t);
          EInfof ("Setting server tunnel endpoint at " +:+ Ssh.serverTunnelEndpoint t);
          EInfof ("Setting remote endpoint at " +:+ Ssh.remoteEndpoint t);
          EListen (Ssh.localTunnelEndpoint t);
          EInfof ("[!] Error setting SSH tunnel listener: " +:+ err);
          ESend false].
Proof.
  intros Hproto Hmk Hbind.
  unfold FastStartTunnel. rewrite Hproto, SSH_registered, Hmk.
  cbn [Start SshTunnel_Tunnel].
  rewrite (Start_run_bind_failure t (spawn GoStart (makeTunnelReady w)) err Hbind).
  cbn [tunnelReady deliver log spawn makeTunnelReady app].
  eexists. split; [reflexivity |]. split; [reflexivity |].
  apply emitted_app. cbn [trace deliver log spawn makeTunnelReady].
  now rewrite <- app_assoc.
Qed.

Lemma FastStartTunnel_drops_bind_failure_witness :
  Protocol exampleConfig = "SSH"
  /\ Ssh.SshTunnelFactory busyWorld exampleConfig = OK exampleTunnel
  /\ listenErr busyWorld (Ssh.localTunnelEndpoint exampleTunnel)
     = Some "bind: address already in use"
  /\ exists w' : World,
       FastStartTunnel CommunicationTunnelFactories exampleConfig busyWorld
       = Some (OK exampleTunnel, w')
       /\ tunnelReady w' = [false].
Proof.
  split; [reflexivity |]. split; [reflexivity |]. split; [reflexivity |].
  destruct (FastStartTunnel_drops_bind_failure
              busyWorld exampleConfig exampleTunnel "bind: address already in use"
              eq_refl eq_refl eq_refl) as (w' & Hret & Hready & _).
  exists w'. split; [exact Hret | exact Hready].
Defined.

(** * Further properties of the code *)

(** ** More on [Split], [Atoi] and [%d] *)

Section MoreStrings.

(** A one-byte separator cuts after a piece in which it does not occur. *)
Lemma splitFrom_byte_cut (c0 : ascii) (a b : string) :
  ContainsByte a c0 = false ->
  forall cur,
    splitFrom (String c0 "") 0 cur (a +:+ String c0 b)
    = (cur +:+ a) :: splitFrom (String c0 "") 0 "" b.
Proof.
  induction a as [|c a IH]; intros Hno cur.
  - rewrite append_nil, append_empty_r. cbn [splitFrom HasPrefix].
    now rewrite Ascii.eqb_refl.
  - cbn [ContainsByte] in Hno. apply orb_false_elim in Hno as [Hc Ha].
    rewrite append_cons. cbn [splitFrom HasPrefix].
    rewrite Ascii.eqb_sym, Hc. rewrite (IH Ha). now rewrite append_snoc.
Qed.

Lemma Split_byte_cut (c0 : ascii) (a b : string) :
  ContainsByte a c0 = false ->
  Split (a +:+ String c0 b) (String c0 "") = a :: Split b (String c0 "").
Proof. intros Hno. unfold Split. now rewrite splitFrom_byte_cut. Qed.

(** A string without ["://"] is not cut at ["://"]. *)
Lemma splitFrom_no_scheme (s : string) :
  Contains s "://" = false ->
  forall cur, splitFrom "://" 0 cur s = [cur +:+ s].
Proof.
  induction s as [|c s IH]; intros Hno cur.
  - cbn. now rewrite append_empty_r.
  - cbn [Contains] in Hno. apply orb_false_elim in Hno as [Hp Hs].
    cbn [splitFrom]. rewrite Hp, (IH Hs). now rewrite append_snoc.
Qed.

Lemma Split_no_scheme (s : string) :
  Contains s "://" = false -> Split s "://" = [s].
Proof. intros Hno. unfold Split. now rewrite splitFrom_no_scheme. Qed.

Lemma ContainsByte_append (a b : string) (c : ascii) :
  ContainsByte (a +:+ b) c = (ContainsByte a c || ContainsByte b c)%bool.
Proof.
  induction a as [|x a IH]; [reflexivity |].
  rewrite append_cons. cbn [ContainsByte]. now rewrite IH, orb_assoc.
Qed.

(** The first piece of a cut at a byte does not contain that byte. *)
Lemma splitFrom_head_clean (c0 : ascii) (s : string) :
  forall cur x rest,
    ContainsByte cur c0 = false ->
    splitFrom (String c0 "") 0 cur s = x :: rest ->
    ContainsByte x c0 = false.
Proof.
  induction s as [|c s IH]; intros cur x rest Hcur Hsplit.
  - cbn in Hsplit. now injection Hsplit as <- _.
  - cbn [splitFrom HasPrefix] in Hsplit.
    destruct (Ascii.eqb c0 c) eqn:Hc.
    + now injection Hsplit as <- _.
    + apply (IH _ _ _) in Hsplit; [exact Hsplit |].
      rewrite ContainsByte_append, Hcur. cbn [ContainsByte orb].
      now rewrite Ascii.eqb_sym, Hc.
Qed.

(** [host:port] has no ["://"] when [host] has no colon and [port]
    neither a colon nor a slash. *)
Lemma Contains_scheme_host_port (host port : string) :
  ContainsByte host ":" = false ->
  ContainsByte port ":" = false ->
  ContainsByte port "/" = false ->
  Contains (host +:+ ":" +:+ port) "://" = false.
Proof.
  intros Hh Hp Hs. induction host as [|c host IH].
  - rewrite append_nil, append_cons, append_nil. cbn [Contains HasPrefix].
    rewrite Ascii.eqb_refl, (Contains_scheme_absent port Hp), orb_false_r.
    destruct port as [|d port]; [reflexivity |].
    cbn [ContainsByte] in Hs. apply orb_false_elim in Hs as [Hd _].
    now rewrite Ascii.eqb_sym, Hd.
  - cbn [ContainsByte] in Hh. apply orb_false_elim in Hh as [Hc Hh].
    rewrite append_cons. cbn [Contains HasPrefix].
    now rewrite Ascii.eqb_sym, Hc, (IH Hh).
Qed.

Lemma isDigit_not (c d : ascii) :
  isDigit c = true -> isDigit d = false -> Ascii.eqb c d = false.
Proof.
  intros Hc Hd. destruct (Ascii.eqb_spec c d) as [-> |]; [congruence | reflexivity].
Qed.

(** Only digits are read by [parseDigits]. *)
Lemma parseDigits_only_digits (s : string) (c : ascii) :
  isDigit c = false ->
  forall acc n, parseDigits acc s = Some n -> ContainsByte s c = false.
Proof.
  intros Hc. induction s as [|a s IH]; intros acc n Hparse; [reflexivity |].
  cbn [parseDigits] in Hparse. destruct (isDigit a) eqn:Ha; [| discriminate Hparse].
  cbn [ContainsByte]. now rewrite (isDigit_not a c Ha Hc), (IH _ _ Hparse).
Qed.

(** What [Atoi] accepts is in the range of [int], is not empty and holds
    digits only, after an optional sign. *)
Lemma Atoi_accepts (s : string) (n : Z) :
  Atoi s = Some n ->
  s <> "" /\ minInt <= n <= maxInt
  /\ forall c, isDigit c = false -> c <> "-"%char -> c <> "+"%char ->
               ContainsByte s c = false.
Proof.
  unfold Atoi. destruct s as [|c0 s']; [discriminate |]. intros H.
  split; [discriminate |].
  set (body := if (Ascii.eqb c0 "-" || Ascii.eqb c0 "+")%bool then s' else String c0 s') in H.
  destruct body as [|b body'] eqn:Hbody; [discriminate H |].
  destruct (parseDigits 0 (String b body')) as [m|] eqn:Hparse; [| discriminate H].
  destruct ((minInt <=? (if Ascii.eqb c0 "-" then - m else m))
            && ((if Ascii.eqb c0 "-" then - m else m) <=? maxInt))%bool eqn:Hrange;
    [| discriminate H].
  injection H as <-. apply andb_prop in Hrange as [Hlo Hhi].
  split; [lia |].
  intros c Hc Hminus Hplus.
  pose proof (parseDigits_only_digits _ c Hc _ _ Hparse) as Hclean.
  subst body. cbn [ContainsByte].
  destruct (Ascii.eqb_spec c0 "-") as [-> | Hm]; cbn [orb] in Hbody.
  - rewrite Hbody, Hclean, orb_false_r. now apply Ascii.eqb_neq.
  - destruct (Ascii.eqb_spec c0 "+") as [-> | Hp]; cbn [orb] in Hbody.
    + rewrite Hbody, Hclean, orb_false_r. now apply Ascii.eqb_neq.
    + rewrite <- Hbody in Hclean. exact Hclean.
Qed.

End MoreStrings.

Section DecimalRoundTrip.

Lemma parseDigits_uint_acc (d : Decimal.uint) :
  forall acc : positive,
    parseDigits (Z.pos acc) (NilEmpty.string_of_uint d)
    = Some (Z.pos (Pos.of_uint_acc d acc)).
Proof.
  induction d; intros acc; cbn [NilEmpty.string_of_uint Pos.of_uint_acc parseDigits];
    [reflexivity | ..];
    (change (isDigit _) with true; cbn match;
     match goal with
     | |- parseDigits ?x _ = Some (Z.pos (Pos.of_uint_acc _ ?q)) =>
         replace x with (Z.pos q) by (unfold digitVal; cbn; lia)
     end; apply IHd).
Qed.

Lemma parseDigits_uint (d : Decimal.uint) :
  parseDigits 0 (NilEmpty.string_of_uint d) = Some (Z.of_N (Pos.of_uint d)).
Proof.
  induction d; cbn [NilEmpty.string_of_uint Pos.of_uint parseDigits];
    [reflexivity | exact IHd | ..];
    (change (isDigit _) with true; cbn match;
     match goal with
     | |- parseDigits ?x _ = Some (Z.of_N (N.pos (Pos.of_uint_acc _ ?q))) =>
         change x with (Z.pos q)
     end; apply parseDigits_uint_acc).
Qed.

Lemma string_of_uint_digits (d : Decimal.uint) (c : ascii) :
  isDigit c = false -> ContainsByte (NilEmpty.string_of_uint d) c = false.
Proof.
  intros Hc. induction d; cbn [NilEmpty.string_of_uint ContainsByte];
    [reflexivity | ..];
    (rewrite IHd, orb_false_r; apply isDigit_not; [reflexivity | exact Hc]).
Qed.

(** The unsigned decimal of a positive number starts with a digit. *)
Lemma string_of_pos_shape (p : positive) :
  exists c s',
    NilZero.string_of_uint (Pos.to_uint p) = String c s'
    /\ NilEmpty.string_of_uint (Pos.to_uint p) = String c s'
    /\ isDigit c = true.
Proof.
  pose proof (DecimalPos.Unsigned.to_uint_nonnil p) as Hnn.
  destruct (Pos.to_uint p); [congruence | ..];
    cbn [NilZero.string_of_uint NilEmpty.string_of_uint]; eauto.
Qed.

Lemma Atoi_unsigned (c : ascii) (s' : string) (n : Z) :
  isDigit c = true ->
  parseDigits 0 (String c s') = Some n ->
  minInt <= n <= maxInt ->
  Atoi (String c s') = Some n.
Proof.
  intros Hc Hparse Hrange. unfold Atoi.
  rewrite (isDigit_not c "-" Hc eq_refl), (isDigit_not c "+" Hc eq_refl).
  cbn [orb]. rewrite Hparse.
  destruct (Z.leb_spec minInt n), (Z.leb_spec n maxInt); try lia. reflexivity.
Qed.

(** [Atoi] reads back what [%d] prints, for every value of an [int]. *)
Lemma Atoi_fmtInt (n : Z) :
  minInt <= n <= maxInt -> Atoi (fmtInt n) = Some n.
Proof.
  intros Hrange. unfold fmtInt. destruct n as [|p|p]; [reflexivity | |].
  - cbn [Z.to_int NilZero.string_of_int].
    destruct (string_of_pos_shape p) as (c & s' & -> & Hs & Hc).
    apply Atoi_unsigned; [exact Hc | | exact Hrange].
    now rewrite <- Hs, parseDigits_uint, DecimalPos.Unsigned.of_to.
  - cbn [Z.to_int NilZero.string_of_int].
    destruct (string_of_pos_shape p) as (c & s' & -> & Hs & Hc).
    unfold Atoi. change (Ascii.eqb "-" "-") with true. lazy beta iota zeta delta [orb].
    rewrite <- Hs, parseDigits_uint, DecimalPos.Unsigned.of_to.
    change (- Z.of_N (N.pos p)) with (Z.neg p).
    destruct (Z.leb_spec minInt (Z.neg p)), (Z.leb_spec (Z.neg p) maxInt); try lia.
    reflexivity.
Qed.

(** [%d] prints digits, after ['-'] for a negative number. *)
Lemma fmtInt_chars (n : Z) (c : ascii) :
  isDigit c = false -> c <> "-"%char -> ContainsByte (fmtInt n) c = false.
Proof.
  intros Hc Hminus. unfold fmtInt.
  destruct n as [|p|p]; cbn [Z.to_int NilZero.string_of_int].
  - change (Ascii.eqb "0" c || false = false)%bool.
    now rewrite (isDigit_not "0" c eq_refl Hc).
  - destruct (string_of_pos_shape p) as (c0 & s' & -> & <- & _).
    now apply string_of_uint_digits.
  - destruct (string_of_pos_shape p) as (c0 & s' & -> & <- & _).
    cbn [ContainsByte]. rewrite string_of_uint_digits by exact Hc.
    rewrite orb_false_r. apply Ascii.eqb_neq. congruence.
Qed.

Lemma fmtInt_nonempty (n : Z) : fmtInt n <> "".
Proof.
  unfold fmtInt. destruct n as [|p|p]; cbn [Z.to_int NilZero.string_of_int];
    [discriminate | | discriminate].
  destruct (string_of_pos_shape p) as (c & s' & -> & _). discriminate.
Qed.

End DecimalRoundTrip.

(** ** More on endpoint parsing *)

Section MoreParsing.

Lemma Split_host_tail (host tail : string) :
  ContainsByte host ":" = false ->
  Split (host +:+ ":" +:+ tail) ":" = host :: Split tail ":".
Proof.
  intros Hno. change (":" +:+ tail) with (String ":" tail).
  now apply Split_byte_cut.
Qed.

Lemma Split_colon_head (s : string) :
  exists x rest, Split s ":" = x :: rest /\ ContainsByte x ":" = false.
Proof.
  destruct (Split s ":") as [|x rest] eqn:Hs; [now apply Split_nonempty in Hs |].
  exists x, rest. split; [reflexivity |].
  now apply (splitFrom_head_clean ":" s "" x rest eq_refl).
Qed.

Lemma splitAddrAndPort_explicit (host portStr protocol : string) (n : Z) :
  ContainsByte host ":" = false -> host <> "" ->
  Atoi portStr = Some n ->
  splitAddrAndPort (host +:+ ":" +:+ portStr) protocol = OK (host, n).
Proof.
  intros Hno Hne Hatoi.
  destruct (Atoi_accepts _ _ Hatoi) as (Hpne & _ & Hchars).
  unfold splitAddrAndPort. rewrite (Split_host_tail host portStr Hno).
  rewrite (Split_absent ":" "" portStr) by (apply Hchars; done).
  cbn [mbind result_bind].
  now rewrite (eqb_empty_false _ Hne), (eqb_empty_false _ Hpne), Hatoi.
Qed.

Lemma getTunneledProtocolAndRemoteAddr_none (dest : string) :
  Contains dest "://" = false ->
  getTunneledProtocolAndRemoteAddr dest = ("http", dest).
Proof.
  intros Hno. unfold getTunneledProtocolAndRemoteAddr.
  now rewrite (Split_no_scheme dest Hno).
Qed.

Lemma getTunneledProtocolAndRemoteAddr_prefix (p rest : string) :
  Contains p "://" = false -> Contains rest "://" = false ->
  getTunneledProtocolAndRemoteAddr (p +:+ "://" +:+ rest) = (p, rest).
Proof.
  intros Hp Hrest. unfold getTunneledProtocolAndRemoteAddr.
  now rewrite (Split_scheme p rest Hp), (Split_no_scheme rest Hrest).
Qed.

End MoreParsing.

Lemma BuildTunnelConfig_with_port
    (protocol tunnelEndpoint user password p host portStr : string) (n : Z) :
  ContainsByte host ":" = false -> host <> "" ->
  Atoi portStr = Some n ->
  Contains p "://" = false ->
  BuildTunnelConfig protocol tunnelEndpoint
    (p +:+ "://" +:+ host +:+ ":" +:+ portStr) user password
  = OK {| Protocol := protocol; TunnelEndpoint := tunnelEndpoint;
          Username := user; Password := password;
          RemoteAddr := host; RemotePort := n; TunneledProtocol := p |}
  /\
  BuildTunnelConfig protocol tunnelEndpoint (host +:+ ":" +:+ portStr) user password
  = OK {| Protocol := protocol; TunnelEndpoint := tunnelEndpoint;
          Username := user; Password := password;
          RemoteAddr := host; RemotePort := n; TunneledProtocol := "http" |}.
Proof.
  intros Hno Hne Hatoi Hp.
  destruct (Atoi_accepts _ _ Hatoi) as (_ & _ & Hchars).
  assert (Hrest : Contains (host +:+ ":" +:+ portStr) "://" = false).
  { apply Contains_scheme_host_port; [exact Hno | apply Hchars; done ..]. }
  unfold BuildTunnelConfig. split.
  - rewrite (getTunneledProtocolAndRemoteAddr_prefix p _ Hp Hrest).
    now rewrite (splitAddrAndPort_explicit host portStr p n Hno Hne Hatoi).
  - rewrite (getTunneledProtocolAndRemoteAddr_none _ Hrest).
    now rewrite (splitAddrAndPort_explicit host portStr "http" n Hno Hne Hatoi).
Qed.

(** X1: an explicit port is taken as it is, whatever the protocol: with a
    prefix the protocol is the prefix (listed in the table or not),
    without one it is "http". *)
Theorem BuildTunnelConfig_explicit_port
    (protocol tunnelEndpoint user password p host portStr : string) (n : Z) :
  ContainsByte host ":" = false -> host <> "" ->
  Atoi portStr = Some n ->
  Contains p "://" = false ->
  BuildTunnelConfig protocol tunnelEndpoint
    (p +:+ "://" +:+ host +:+ ":" +:+ portStr) user password
  = OK {| Protocol := protocol; TunnelEndpoint := tunnelEndpoint;
          Username := user; Password := password;
          RemoteAddr := host; RemotePort := n; TunneledProtocol := p |}
  /\
  BuildTunnelConfig protocol tunnelEndpoint (host +:+ ":" +:+ portStr) user password
  = OK {| Protocol := protocol; TunnelEndpoint := tunnelEndpoint;
          Username := user; Password := password;
          RemoteAddr := host; RemotePort := n; TunneledProtocol := "http" |}.
Proof. apply BuildTunnelConfig_with_port. Qed.

Lemma BuildTunnelConfig_explicit_port_witness :
  BuildTunnelConfig "SSH" "10.50.122.50:22" "ftp://192.168.1.111:2121" "root" "secret"
  = OK {| Protocol := "SSH"; TunnelEndpoint := "10.50.122.50:22";
          Username := "root"; Password := "secret";
          RemoteAddr := "192.168.1.111"; RemotePort := 2121;
          TunneledProtocol := "ftp" |}.
Proof.
  exact (proj1 (BuildTunnelConfig_explicit_port
                  "SSH" "10.50.122.50:22" "root" "secret" "ftp" "192.168.1.111" "2121"
                  2121 eq_refl ltac:(discriminate) eq_refl eq_refl)).
Defined.

(** X2: the three refusals of [splitAddrAndPort] that do not come from the
    port table.  An empty host is refused whatever follows the colon; an
    empty port and a port that [Atoi] rejects are refused for a host that
    is there, the latter with the whole endpoint in the message. *)
Theorem splitAddrAndPort_refusals (host port tail protocol : string) :
  splitAddrAndPort (":" +:+ tail) protocol = Err "empty address/hostname provided."
  /\ (ContainsByte host ":" = false -> host <> "" ->
      splitAddrAndPort (host +:+ ":") protocol = Err "empty port provided."
      /\ (ContainsByte port ":" = false -> port <> "" -> Atoi port = None ->
          splitAddrAndPort (host +:+ ":" +:+ port) protocol
          = Err ("invalid endpoint provided: " +:+ host +:+ ":" +:+ port))).
Proof.
  split; [| intros Hno Hne; split].
  - unfold splitAddrAndPort.
    change (":" +:+ tail) with ("" +:+ String ":" tail).
    rewrite (Split_byte_cut ":" "" tail eq_refl).
    destruct (Split_colon_head tail) as (x & rest & -> & _). reflexivity.
  - unfold splitAddrAndPort.
    change (host +:+ ":") with (host +:+ ":" +:+ "").
    rewrite (Split_host_tail host "" Hno). cbn [Split splitFrom mbind result_bind].
    now rewrite (eqb_empty_false _ Hne).
  - intros Hpno Hpne Hatoi. unfold splitAddrAndPort.
    rewrite (Split_host_tail host port Hno), (Split_absent ":" "" port Hpno).
    cbn [mbind result_bind].
    now rewrite (eqb_empty_false _ Hne), (eqb_empty_false _ Hpne), Hatoi.
Qed.

Lemma splitAddrAndPort_refusals_witness :
  splitAddrAndPort "10.0.0.1:" "http" = Err "empty port provided."
  /\ splitAddrAndPort "10.0.0.1:8o" "http" = Err "invalid endpoint provided: 10.0.0.1:8o".
Proof.
  destruct (splitAddrAndPort_refusals "10.0.0.1" "8o" "" "http") as (_ & H).
  destruct (H eq_refl ltac:(discriminate)) as (Hempty & Hbad).
  split; [exact Hempty |]. apply Hbad; [reflexivity | discriminate | reflexivity].
Defined.

(** X3: only the first two pieces of a cut at [':'] are read: what
    follows a second colon does not change the host and the port. *)
Theorem splitAddrAndPort_ignores_rest (host portStr rest protocol : string) (n : Z) :
  ContainsByte host ":" = false -> host <> "" ->
  Atoi portStr = Some n ->
  splitAddrAndPort (host +:+ ":" +:+ portStr +:+ ":" +:+ rest) protocol = OK (host, n).
Proof.
  intros Hno Hne Hatoi.
  destruct (Atoi_accepts _ _ Hatoi) as (Hpne & _ & Hchars).
  unfold splitAddrAndPort.
  rewrite (Split_host_tail host _ Hno).
  rewrite (Split_host_tail portStr rest) by (apply Hchars; done).
  cbn [mbind result_bind].
  now rewrite (eqb_empty_false _ Hne), (eqb_empty_false _ Hpne), Hatoi.
Qed.

Lemma splitAddrAndPort_ignores_rest_witness :
  splitAddrAndPort "fe80:1:2:3" "http" = OK ("fe80", 1).
Proof.
  exact (splitAddrAndPort_ignores_rest "fe80" "1" "2:3" "http" 1
           eq_refl ltac:(discriminate) eq_refl).
Defined.

Lemma splitAddrAndPort_ok (addrAndPort protocol addr : string) (n : Z) :
  splitAddrAndPort addrAndPort protocol = OK (addr, n) ->
  addr <> "" /\ ContainsByte addr ":" = false /\ minInt <= n <= maxInt.
Proof.
  unfold splitAddrAndPort.
  destruct (Split_colon_head addrAndPort) as (x & rest & -> & Hx).
  intros H.
  destruct (match rest with
            | [] => match defaultProtocolPorts !! protocol with
                    | Some defaultPort => OK defaultPort
                    | None => Err ("could not get default port for protocol " +:+ protocol)
                    end
            | p1 :: _ => OK p1
            end) as [portStr | e]; cbn [mbind result_bind] in H; [| discriminate H].
  destruct (String.eqb_spec x "") as [| Hx0]; [discriminate H |].
  destruct (String.eqb portStr ""); [discriminate H |].
  destruct (Atoi portStr) as [m |] eqn:Hatoi; [| discriminate H].
  injection H as <- <-.
  destruct (Atoi_accepts _ _ Hatoi) as (_ & Hrange & _). auto.
Qed.

(** X4: a configuration that [BuildTunnelConfig] returns has a host that
    is not empty and holds no colon, a port in the range of [int], and
    the tunnel protocol, tunnel endpoint, user and password it was given,
    unchanged. *)
Theorem BuildTunnelConfig_ok
    (protocol tunnelEndpoint destEndpoint user password : string) (cfg : TunnelConfig) :
  BuildTunnelConfig protocol tunnelEndpoint destEndpoint user password = OK cfg ->
  Protocol cfg = protocol /\ TunnelEndpoint cfg = tunnelEndpoint
  /\ Username cfg = user /\ Password cfg = password
  /\ RemoteAddr cfg <> "" /\ ContainsByte (RemoteAddr cfg) ":" = false
  /\ minInt <= RemotePort cfg <= maxInt.
Proof.
  unfold BuildTunnelConfig.
  destruct (getTunneledProtocolAndRemoteAddr destEndpoint) as [tp re].
  destruct (splitAddrAndPort re tp) as [[addr n] | e] eqn:Hsplit;
    cbn [mbind result_bind]; [| discriminate].
  intros [= <-]. cbn.
  destruct (splitAddrAndPort_ok _ _ _ _ Hsplit) as (? & ? & ?).
  repeat split; try assumption; lia.
Qed.

Lemma BuildTunnelConfig_ok_witness :
  let cfg := {| Protocol := "SSH"; TunnelEndpoint := "10.50.122.50:22";
                Username := "root"; Password := "secret";
                RemoteAddr := "192.168.1.111"; RemotePort := 443;
                TunneledProtocol := "https" |} in
  BuildTunnelConfig "SSH" "10.50.122.50:22" "https://192.168.1.111" "root" "secret"
  = OK cfg
  /\ RemoteAddr cfg <> "" /\ ContainsByte (RemoteAddr cfg) ":" = false.
Proof.
  intros cfg. split; [reflexivity |].
  destruct (BuildTunnelConfig_ok "SSH" "10.50.122.50:22" "https://192.168.1.111"
              "root" "secret" cfg eq_refl) as (_ & _ & _ & _ & Hne & Hno & _).
  split; [exact Hne | exact Hno].
Defined.

(** X5: the port is not held to the range of TCP ports: for every value
    [n] of an [int], negative ones and ones above 65535 included, the
    destination host:n, with [n] printed by [%d], gives [RemotePort] [n]. *)
Theorem BuildTunnelConfig_any_int_port
    (protocol tunnelEndpoint user password host : string) (n : Z) :
  ContainsByte host ":" = false -> host <> "" ->
  minInt <= n <= maxInt ->
  BuildTunnelConfig protocol tunnelEndpoint (host +:+ ":" +:+ fmtInt n) user password
  = OK {| Protocol := protocol; TunnelEndpoint := tunnelEndpoint;
          Username := user; Password := password;
          RemoteAddr := host; RemotePort := n; TunneledProtocol := "http" |}.
Proof.
  intros Hno Hne Hrange.
  exact (proj2 (BuildTunnelConfig_with_port protocol tunnelEndpoint user password
                  "" host (fmtInt n) n Hno Hne (Atoi_fmtInt n Hrange) eq_refl)).
Qed.

Lemma BuildTunnelConfig_any_int_port_witness :
  BuildTunnelConfig "SSH" "10.50.122.50:22" "192.168.1.111:-70000" "root" "secret"
  = OK {| Protocol := "SSH"; TunnelEndpoint := "10.50.122.50:22";
          Username := "root"; Password := "secret";
          RemoteAddr := "192.168.1.111"; RemotePort := -70000;
          TunneledProtocol := "http" |}.
Proof.
  apply (BuildTunnelConfig_any_int_port "SSH" "10.50.122.50:22" "root" "secret"
           "192.168.1.111" (-70000)); [reflexivity | discriminate |].
  unfold minInt, maxInt. lia.
Defined.

Lemma getEndpointInfo_with_port (p host port : string) :
  Contains p "://" = false ->
  ContainsByte host ":" = false -> host <> "" ->
  ContainsByte port ":" = false -> ContainsByte port "/" = false -> port <> "" ->
  getEndpointInfo (p +:+ "://" +:+ host +:+ ":" +:+ port) = OK (p, host, port).
Proof.
  intros Hp Hno Hne Hpc Hps Hpne. unfold getEndpointInfo.
  rewrite (Split_scheme p _ Hp).
  rewrite (Split_no_scheme _ (Contains_scheme_host_port host port Hno Hpc Hps)).
  rewrite (Split_host_tail host port Hno), (Split_absent ":" "" port Hpc).
  cbn [mbind result_bind].
  now rewrite (eqb_empty_false _ Hne), (eqb_empty_false _ Hpne).
Qed.

(** X6: [getEndpointInfo] with a protocol prefix.  Without a port it
    returns the port of the table for "http" and "https" and fails for
    any other prefix; with a port it returns the port string as written,
    numeric or not. *)
Theorem getEndpointInfo_prefix (p host port : string) :
  Contains p "://" = false ->
  ContainsByte host ":" = false -> host <> "" ->
  (p = "http" -> getEndpointInfo (p +:+ "://" +:+ host) = OK ("http", host, "80"))
  /\ (p = "https" -> getEndpointInfo (p +:+ "://" +:+ host) = OK ("https", host, "443"))
  /\ (p <> "http" -> p <> "https" ->
      getEndpointInfo (p +:+ "://" +:+ host)
      = Err ("could not get default port for protocol " +:+ p))
  /\ (ContainsByte port ":" = false -> ContainsByte port "/" = false -> port <> "" ->
      getEndpointInfo (p +:+ "://" +:+ host +:+ ":" +:+ port) = OK (p, host, port)).
Proof.
  intros Hp Hno Hne.
  assert (Hbare : Split (p +:+ "://" +:+ host) "://" = [p; host]).
  { now rewrite (Split_scheme p host Hp), (Split_absent ":" "//" host Hno). }
  repeat split.
  - intros ->. unfold getEndpointInfo.
    rewrite Hbare, (Split_absent ":" "" host Hno), defaultPort_http.
    cbn [mbind result_bind]. now rewrite (eqb_empty_false _ Hne).
  - intros ->. unfold getEndpointInfo.
    rewrite Hbare, (Split_absent ":" "" host Hno), defaultPort_https.
    cbn [mbind result_bind]. now rewrite (eqb_empty_false _ Hne).
  - intros H1 H2. unfold getEndpointInfo.
    now rewrite Hbare, (Split_absent ":" "" host Hno), (defaultPort_other p H1 H2).
  - intros Hpc Hps Hpne. now apply getEndpointInfo_with_port.
Qed.

Lemma getEndpointInfo_prefix_witness :
  getEndpointInfo "https://192.168.10.1" = OK ("https", "192.168.10.1", "443")
  /\ getEndpointInfo "http://192.168.10.1:8o8o" = OK ("http", "192.168.10.1", "8o8o").
Proof.
  split.
  - exact (proj1 (proj2 (getEndpointInfo_prefix "https" "192.168.10.1" ""
                           eq_refl eq_refl ltac:(discriminate))) eq_refl).
  - exact (proj2 (proj2 (proj2 (getEndpointInfo_prefix "http" "192.168.10.1" "8o8o"
                                  eq_refl eq_refl ltac:(discriminate))))
             eq_refl eq_refl ltac:(discriminate)).
Defined.

(** X7: [getEndpointInfo] and [BuildTunnelConfig] read an endpoint alike,
    but for the protocol that is left out.  When [BuildTunnelConfig]
    accepts a destination, [getEndpointInfo] returns the same host and a
    port string that [Atoi] turns into the same port, with the same
    protocol or, where there is no prefix, the empty protocol instead of
    "http"; the one exception is a destination with neither prefix nor
    port, which only [BuildTunnelConfig] accepts (as http, port 80). *)
Theorem getEndpointInfo_agrees
    (protocol tunnelEndpoint destEndpoint user password : string) (cfg : TunnelConfig) :
  BuildTunnelConfig protocol tunnelEndpoint destEndpoint user password = OK cfg ->
  (exists p port,
      getEndpointInfo destEndpoint = OK (p, RemoteAddr cfg, port)
      /\ Atoi port = Some (RemotePort cfg)
      /\ (p = TunneledProtocol cfg \/ (p = "" /\ TunneledProtocol cfg = "http")))
  \/ (getEndpointInfo destEndpoint = Err "could not get default port for protocol "
      /\ TunneledProtocol cfg = "http" /\ RemotePort cfg = 80).
Proof.
  unfold BuildTunnelConfig, getTunneledProtocolAndRemoteAddr, getEndpointInfo,
    splitAddrAndPort.
  destruct (Split destEndpoint "://") as [|p0 [|p1 more]] eqn:Hcut.
  - now apply Split_nonempty in Hcut.
  - (* no prefix *)
    destruct (Split p0 ":") as [|addr [|port rest]] eqn:Hcolon.
    + now apply Split_nonempty in Hcolon.
    + rewrite defaultPort_http. cbn [mbind result_bind].
      destruct (String.eqb addr ""); [discriminate |].
      cbn. intros [= <-]. right. cbn. auto.
    + cbn [mbind result_bind].
      destruct (String.eqb addr ""); [discriminate |].
      destruct (String.eqb port ""); [discriminate |].
      destruct (Atoi port) as [n|] eqn:Hatoi; [| discriminate].
      intros [= <-]. left. exists "", port. cbn. auto.
  - (* prefix p0 *)
    destruct (Split p1 ":") as [|addr [|port rest]] eqn:Hcolon.
    + now apply Split_nonempty in Hcolon.
    + destruct (defaultProtocolPorts !! p0) as [dp|]; cbn [mbind result_bind];
        [| discriminate].
      destruct (String.eqb addr ""); [discriminate |].
      destruct (String.eqb dp ""); [discriminate |].
      destruct (Atoi dp) as [n|] eqn:Hatoi; [| discriminate].
      intros [= <-]. left. exists p0, dp. cbn. auto.
    + cbn [mbind result_bind].
      destruct (String.eqb addr ""); [discriminate |].
      destruct (String.eqb port ""); [discriminate |].
      destruct (Atoi port) as [n|] eqn:Hatoi; [| discriminate].
      intros [= <-]. left. exists p0, port. cbn. auto.
Qed.

Lemma getEndpointInfo_agrees_witness :
  BuildTunnelConfig "SSH" "10.50.122.50:22" "https://192.168.1.111" "root" "secret"
  = OK {| Protocol := "SSH"; TunnelEndpoint := "10.50.122.50:22";
          Username := "root"; Password := "secret";
          RemoteAddr := "192.168.1.111"; RemotePort := 443;
          TunneledProtocol := "https" |}
  /\ ((exists p port,
          getEndpointInfo "https://192.168.1.111" = OK (p, "192.168.1.111", port)
          /\ Atoi port = Some 443
          /\ (p = "https" \/ (p = "" /\ "https" = "http")))
      \/ (getEndpointInfo "https://192.168.1.111"
          = Err "could not get default port for protocol "
          /\ "https" = "http" /\ 443 = 80)).
Proof.
  split; [reflexivity |].
  exact (getEndpointInfo_agrees "SSH" "10.50.122.50:22" "https://192.168.1.111"
           "root" "secret" _ eq_refl).
Defined.

(** ** More on construction *)

(** X8: a tunnel endpoint that is a bare number is the port of an SSH
    server on the destination host itself: the engine connects to
    RemoteAddr:number and forwards to localhost:RemotePort, whatever
    [RemoteAddr] is. *)
Theorem SshTunnelFactory_bare_port (w : World) (cfg : TunnelConfig) (n : Z) :
  Atoi (TunnelEndpoint cfg) = Some n ->
  exists t,
    Ssh.SshTunnelFactory w cfg = OK t
    /\ Ssh.serverTunnelEndpoint t = RemoteAddr cfg +:+ ":" +:+ fmtInt n
    /\ Ssh.remoteEndpoint t = "localhost" +:+ ":" +:+ fmtInt (RemotePort cfg).
Proof.
  intros Hatoi. unfold Ssh.SshTunnelFactory, Ssh.getSSHServerAddrAndPort.
  rewrite Hatoi. cbn [mbind result_bind]. eexists. split; [reflexivity |].
  cbn [Ssh.serverTunnelEndpoint Ssh.remoteEndpoint].
  unfold Ssh.getRelativeRemoteAddr. now rewrite String.eqb_refl.
Qed.

Lemma SshTunnelFactory_bare_port_witness :
  exists t,
    Ssh.SshTunnelFactory busyWorld
      {| Protocol := "SSH"; TunnelEndpoint := "2222"; Username := "root";
         Password := "secret"; RemoteAddr := "192.168.1.111"; RemotePort := 80;
         TunneledProtocol := "http" |} = OK t
    /\ Ssh.serverTunnelEndpoint t = "192.168.1.111:2222"
    /\ Ssh.remoteEndpoint t = "localhost:80".
Proof.
  exact (SshTunnelFactory_bare_port busyWorld
           {| Protocol := "SSH"; TunnelEndpoint := "2222"; Username := "root";
              Password := "secret"; RemoteAddr := "192.168.1.111"; RemotePort := 80;
              TunneledProtocol := "http" |} 2222 eq_refl).
Defined.

Lemma Atoi_rejects_colon (host tail : string) :
  Atoi (host +:+ ":" +:+ tail) = None.
Proof.
  destruct (Atoi (host +:+ ":" +:+ tail)) as [n|] eqn:Hatoi; [| reflexivity].
  destruct (Atoi_accepts _ _ Hatoi) as (_ & _ & Hchars).
  specialize (Hchars ":"%char eq_refl ltac:(discriminate) ltac:(discriminate)).
  rewrite ContainsByte_append in Hchars.
  change (":" +:+ tail) with (String ":" tail) in Hchars.
  cbn [ContainsByte] in Hchars. rewrite Ascii.eqb_refl, orb_true_r in Hchars.
  discriminate Hchars.
Qed.

(** X9: a tunnel endpoint written host:port.  The engine connects to the
    host at the port in canonical decimal, and forwards to the configured
    destination, with "localhost" for the host when the destination is the
    SSH server itself. *)
Theorem SshTunnelFactory_host_port
    (w : World) (cfg : TunnelConfig) (host portStr : string) (n : Z) :
  TunnelEndpoint cfg = host +:+ ":" +:+ portStr ->
  ContainsByte host ":" = false -> host <> "" ->
  Atoi portStr = Some n ->
  exists t,
    Ssh.SshTunnelFactory w cfg = OK t
    /\ Ssh.serverTunnelEndpoint t = host +:+ ":" +:+ fmtInt n
    /\ Ssh.remoteEndpoint t
       = (if String.eqb host (RemoteAddr cfg) then "localhost" else RemoteAddr cfg)
         +:+ ":" +:+ fmtInt (RemotePort cfg).
Proof.
  intros Hte Hno Hne Hatoi.
  unfold Ssh.SshTunnelFactory, Ssh.getSSHServerAddrAndPort.
  rewrite Hte, Atoi_rejects_colon.
  rewrite (splitAddrAndPort_explicit host portStr _ n Hno Hne Hatoi).
  cbn [mbind result_bind]. eexists. split; [reflexivity |].
  split; reflexivity.
Qed.

Lemma SshTunnelFactory_host_port_witness :
  exists t,
    Ssh.SshTunnelFactory busyWorld
      {| Protocol := "SSH"; TunnelEndpoint := "10.50.122.50:+022"; Username := "root";
         Password := "secret"; RemoteAddr := "192.168.1.111"; RemotePort := 80;
         TunneledProtocol := "http" |} = OK t
    /\ Ssh.serverTunnelEndpoint t = "10.50.122.50:22"
    /\ Ssh.remoteEndpoint t = "192.168.1.111:80".
Proof.
  exact (SshTunnelFactory_host_port busyWorld
           {| Protocol := "SSH"; TunnelEndpoint := "10.50.122.50:+022"; Username := "root";
              Password := "secret"; RemoteAddr := "192.168.1.111"; RemotePort := 80;
              TunneledProtocol := "http" |}
           "10.50.122.50" "+022" 22 eq_refl eq_refl ltac:(discriminate) eq_refl).
Defined.

(** X10: a tunnel endpoint without a port gets the default port of the
    carried protocol, not an SSH port: 80 under "http", 443 under "https";
    under any other carried protocol the engine is not built. *)
Theorem SshTunnelFactory_no_port (w : World) (cfg : TunnelConfig) :
  ContainsByte (TunnelEndpoint cfg) ":" = false ->
  TunnelEndpoint cfg <> "" ->
  Atoi (TunnelEndpoint cfg) = None ->
  (TunneledProtocol cfg = "http" ->
   exists t, Ssh.SshTunnelFactory w cfg = OK t
             /\ Ssh.serverTunnelEndpoint t = TunnelEndpoint cfg +:+ ":" +:+ "80")
  /\ (TunneledProtocol cfg = "https" ->
      exists t, Ssh.SshTunnelFactory w cfg = OK t
                /\ Ssh.serverTunnelEndpoint t = TunnelEndpoint cfg +:+ ":" +:+ "443")
  /\ (TunneledProtocol cfg <> "http" -> TunneledProtocol cfg <> "https" ->
      Ssh.SshTunnelFactory w cfg
      = Err ("could not get default port for protocol " +:+ TunneledProtocol cfg)).
Proof.
  intros Hno Hne Hatoi.
  unfold Ssh.SshTunnelFactory, Ssh.getSSHServerAddrAndPort. rewrite Hatoi.
  repeat split.
  - intros ->.
    rewrite (splitAddrAndPort_table _ "http" "80" 80 Hno Hne eq_refl
               ltac:(discriminate) eq_refl).
    cbn [mbind result_bind]. eexists. split; reflexivity.
  - intros ->.
    rewrite (splitAddrAndPort_table _ "https" "443" 443 Hno Hne eq_refl
               ltac:(discriminate) eq_refl).
    cbn [mbind result_bind]. eexists. split; reflexivity.
  - intros H1 H2.
    now rewrite (splitAddrAndPort_unlisted _ _ Hno (defaultPort_other _ H1 H2)).
Qed.

Lemma SshTunnelFactory_no_port_witness :
  exists t,
    Ssh.SshTunnelFactory busyWorld
      {| Protocol := "SSH"; TunnelEndpoint := "10.50.122.50"; Username := "root";
         Password := "secret"; RemoteAddr := "192.168.1.111"; RemotePort := 8080;
         TunneledProtocol := "http" |} = OK t
    /\ Ssh.serverTunnelEndpoint t = "10.50.122.50:80".
Proof.
  exact (proj1 (SshTunnelFactory_no_port busyWorld
                  {| Protocol := "SSH"; TunnelEndpoint := "10.50.122.50";
                     Username := "root"; Password := "secret";
                     RemoteAddr := "192.168.1.111"; RemotePort := 8080;
                     TunneledProtocol := "http" |}
                  eq_refl ltac:(discriminate) eq_refl) eq_refl).
Defined.

Lemma constructed_local_endpoint (w : World) (cfg : TunnelConfig) (t : Ssh.SshTunnel) :
  Ssh.SshTunnelFactory w cfg = OK t ->
  50000 <= Ssh.getRandomListeningPort (randDraw w) < 65000
  /\ Ssh.localTunnelEndpoint t
     = "localhost:" +:+ fmtInt (Ssh.getRandomListeningPort (randDraw w))
  /\ Ssh.tunneledProtocol t = TunneledProtocol cfg.
Proof.
  unfold Ssh.SshTunnelFactory. intros Hmk.
  destruct (Ssh.getSSHServerAddrAndPort cfg) as [[addr port] | e];
    cbn [mbind result_bind] in Hmk; [| discriminate Hmk].
  injection Hmk as <-. split; [apply getRandomListeningPort_range |].
  split; reflexivity.
Qed.

(** X11: the server endpoint that the factory composes reads back: when
    the tunnel endpoint is not a bare number, [splitAddrAndPort] on the
    engine's [serverTunnelEndpoint] returns the address and the port that
    [getSSHServerAddrAndPort] found, under any protocol. *)
Theorem serverTunnelEndpoint_reads_back
    (w : World) (cfg : TunnelConfig) (t : Ssh.SshTunnel) (protocol : string) :
  Atoi (TunnelEndpoint cfg) = None ->
  Ssh.SshTunnelFactory w cfg = OK t ->
  splitAddrAndPort (Ssh.serverTunnelEndpoint t) protocol
  = Ssh.getSSHServerAddrAndPort cfg.
Proof.
  intros Hnum. unfold Ssh.SshTunnelFactory, Ssh.getSSHServerAddrAndPort.
  rewrite Hnum.
  destruct (splitAddrAndPort (TunnelEndpoint cfg) (TunneledProtocol cfg))
    as [[addr n] | e] eqn:Hsplit; cbn [mbind result_bind]; [| discriminate].
  intros [= <-]. cbn [Ssh.serverTunnelEndpoint].
  destruct (splitAddrAndPort_ok _ _ _ _ Hsplit) as (Hne & Hno & Hrange).
  exact (splitAddrAndPort_explicit addr (fmtInt n) protocol n Hno Hne
           (Atoi_fmtInt n Hrange)).
Qed.

Lemma serverTunnelEndpoint_reads_back_witness :
  splitAddrAndPort (Ssh.serverTunnelEndpoint exampleTunnel) "https"
  = OK ("10.50.122.50", 22).
Proof.
  exact (serverTunnelEndpoint_reads_back busyWorld exampleConfig exampleTunnel "https"
           eq_refl eq_refl).
Defined.

(** X12: the local endpoint that an engine reports reads back: for a
    carried protocol without ["://"] in it, [getEndpointInfo] on
    [GetLocalEndpoint] returns the carried protocol, the host "localhost"
    and the decimal of the port that was drawn, which lies in
    [50000, 65000). *)
Theorem GetLocalEndpoint_reads_back
    (w : World) (cfg : TunnelConfig) (t : Ssh.SshTunnel) :
  Contains (TunneledProtocol cfg) "://" = false ->
  Ssh.SshTunnelFactory w cfg = OK t ->
  exists port : Z,
    50000 <= port < 65000
    /\ getEndpointInfo (Ssh.GetLocalEndpoint t)
       = OK (TunneledProtocol cfg, "localhost", fmtInt port)
    /\ Atoi (fmtInt port) = Some port.
Proof.
  intros Hp Hmk.
  destruct (constructed_local_endpoint w cfg t Hmk) as (Hrange & Hlocal & Hproto).
  exists (Ssh.getRandomListeningPort (randDraw w)).
  split; [exact Hrange |]. split.
  - unfold Ssh.GetLocalEndpoint. rewrite Hlocal, Hproto.
    change ("localhost:" +:+ ?x) with ("localhost" +:+ ":" +:+ x).
    apply (getEndpointInfo_with_port (TunneledProtocol cfg) "localhost" _ Hp eq_refl);
      [discriminate | apply fmtInt_chars; done .. | apply fmtInt_nonempty].
  - apply Atoi_fmtInt. unfold minInt, maxInt. lia.
Qed.

Lemma GetLocalEndpoint_reads_back_witness :
  Ssh.SshTunnelFactory busyWorld exampleConfig = OK exampleTunnel
  /\ exists port : Z,
       50000 <= port < 65000
       /\ getEndpointInfo (Ssh.GetLocalEndpoint exampleTunnel)
          = OK ("http", "localhost", fmtInt port)
       /\ Atoi (fmtInt port) = Some port.
Proof.
  split; [reflexivity |].
  exact (GetLocalEndpoint_reads_back busyWorld exampleConfig exampleTunnel
           eq_refl eq_refl).
Defined.

(** ** More on the registry and on fast start *)

(** X13: [GetAvailableCommTunnels] lists each registered name once, and
    the names it lists are those for which [FastStartTunnel] finds a
    constructor: for a configuration whose protocol is not listed,
    [FastStartTunnel] answers "not supported tunnel protocol" and leaves
    the world as it was. *)
Theorem GetAvailableCommTunnels_lookup
    {T : Type} `{Tunnel T}
    (factories : gmap string (World -> TunnelConfig -> result T)) :
  NoDup (GetAvailableCommTunnels factories)
  /\ (forall protocol,
         protocol ∈ GetAvailableCommTunnels factories
         <-> is_Some (factories !! protocol))
  /\ (forall cfg w,
         Protocol cfg ∉ GetAvailableCommTunnels factories ->
         FastStartTunnel factories cfg w
         = Some (Err ("not supported tunnel protocol: " +:+ Protocol cfg), w)).
Proof.
  assert (Hin : forall protocol,
             protocol ∈ GetAvailableCommTunnels factories
             <-> is_Some (factories !! protocol)).
  { intros protocol. unfold GetAvailableCommTunnels.
    rewrite list_elem_of_fmap. split.
    - intros ([k f] & -> & Hkf). apply elem_of_map_to_list in Hkf. now exists f.
    - intros [f Hf]. exists (protocol, f). split; [reflexivity |].
      now apply elem_of_map_to_list. }
  split; [apply NoDup_fst_map_to_list |]. split; [exact Hin |].
  intros cfg w Hout. unfold FastStartTunnel.
  destruct (factories !! Protocol cfg) as [f |] eqn:Hf; [| reflexivity].
  exfalso. apply Hout, Hin. now exists f.
Qed.

(** X14: the registry after [init] holds "SSH" and nothing else, and the
    lookup is by the exact string: every other protocol name, "ssh" in
    lower case included, is refused. *)
Theorem FastStartTunnel_unsupported (cfg : TunnelConfig) (w : World) :
  Protocol cfg <> "SSH" ->
  GetAvailableCommTunnels CommunicationTunnelFactories = ["SSH"]
  /\ FastStartTunnel CommunicationTunnelFactories cfg w
     = Some (Err ("not supported tunnel protocol: " +:+ Protocol cfg), w).
Proof.
  intros Hne. split.
  - unfold GetAvailableCommTunnels, CommunicationTunnelFactories.
    now rewrite insert_empty, map_to_list_singleton.
  - unfold FastStartTunnel, CommunicationTunnelFactories.
    rewrite lookup_insert_ne by congruence. now rewrite lookup_empty.
Qed.

Lemma FastStartTunnel_unsupported_witness :
  FastStartTunnel CommunicationTunnelFactories
    {| Protocol := "ssh"; TunnelEndpoint := "10.50.122.50:22"; Username := "root";
       Password := "secret"; RemoteAddr := "192.168.1.111"; RemotePort := 80;
       TunneledProtocol := "http" |} busyWorld
  = Some (Err "not supported tunnel protocol: ssh", busyWorld).
Proof.
  exact (proj2 (FastStartTunnel_unsupported
                  {| Protocol := "ssh"; TunnelEndpoint := "10.50.122.50:22";
                     Username := "root"; Password := "secret";
                     RemoteAddr := "192.168.1.111"; RemotePort := 80;
                     TunneledProtocol := "http" |} busyWorld ltac:(discriminate))).
Defined.

(** X15: when the SSH server address cannot be worked out, no engine is
    built: [SshTunnelFactory] returns that error, and [FastStartTunnel]
    returns it behind "create tunnel instance failed, err: " without
    making a channel, starting a task or touching the world. *)
Theorem FastStartTunnel_construction_error
    (cfg : TunnelConfig) (w : World) (e : string) :
  Protocol cfg = "SSH" ->
  Ssh.getSSHServerAddrAndPort cfg = Err e ->
  Ssh.SshTunnelFactory w cfg = Err e
  /\ FastStartTunnel CommunicationTunnelFactories cfg w
     = Some (Err ("create tunnel instance failed, err: " +:+ e), w).
Proof.
  intros Hproto Herr.
  assert (Hmk : Ssh.SshTunnelFactory w cfg = Err e).
  { unfold Ssh.SshTunnelFactory. now rewrite Herr. }
  split; [exact Hmk |].
  unfold FastStartTunnel. now rewrite Hproto, SSH_registered, Hmk.
Qed.

Lemma FastStartTunnel_construction_error_witness :
  FastStartTunnel CommunicationTunnelFactories
    {| Protocol := "SSH"; TunnelEndpoint := ":22"; Username := "root";
       Password := "secret"; RemoteAddr := "192.168.1.111"; RemotePort := 80;
       TunneledProtocol := "http" |} busyWorld
  = Some (Err "create tunnel instance failed, err: empty address/hostname provided.",
          busyWorld).
Proof.
  exact (proj2 (FastStartTunnel_construction_error
                  {| Protocol := "SSH"; TunnelEndpoint := ":22"; Username := "root";
                     Password := "secret"; RemoteAddr := "192.168.1.111";
                     RemotePort := 80; TunneledProtocol := "http" |}
                  busyWorld "empty address/hostname provided." eq_refl eq_refl)).
Defined.

Lemma GetAvailableCommTunnels_lookup_witness :
  "SSH" ∈ GetAvailableCommTunnels CommunicationTunnelFactories
  /\ FastStartTunnel CommunicationTunnelFactories
       {| Protocol := "Ssh"; TunnelEndpoint := "10.50.122.50:22"; Username := "root";
          Password := "secret"; RemoteAddr := "192.168.1.111"; RemotePort := 80;
          TunneledProtocol := "http" |} busyWorld
     = Some (Err "not supported tunnel protocol: Ssh", busyWorld).
Proof.
  destruct (GetAvailableCommTunnels_lookup CommunicationTunnelFactories)
    as (_ & Hin & Hout).
  split.
  - apply Hin. rewrite SSH_registered. now eexists.
  - apply Hout. intros Habs. apply Hin in Habs as [f Hf].
    vm_compute in Hf. discriminate Hf.
Defined.

(** ** More on the engine *)

Section MoreEngine.
Import Ssh.
Local Open Scope list_scope.

Lemma log_nil (w : World) : log [] w = w.
Proof. destruct w. unfold log; cbn. now rewrite app_nil_r. Qed.

Lemma log_log (e1 e2 : list Event) (w : World) :
  log e2 (log e1 w) = log (e1 ++ e2) w.
Proof. unfold log; cbn. now rewrite app_assoc. Qed.

Lemma setConns_same (s : SshTunnel) :
  setConns (localConns s) (sshConns s) (remoteConns s) s = s.
Proof. now destruct s. Qed.

Lemma emitted_log (w : World) (events : list Event) :
  emitted w (log events w) = events.
Proof. now apply emitted_app. Qed.

(** The accept loop, in one equation. *)
Lemma acceptLoop_run (outcomes : list (result nat)) :
  forall (s : SshTunnel) (w : World),
    exec (acceptLoop outcomes) (s, w)
    = (setConns (localConns s ++ accepted outcomes) (sshConns s) (remoteConns s) s,
       log (acceptEvents outcomes) w).
Proof.
  induction outcomes as [|[c | err] outcomes IH]; intros s w.
  - cbn [accepted acceptEvents]. rewrite app_nil_r, setConns_same, log_nil. reflexivity.
  - cbn [acceptLoop accepted acceptEvents].
    unfold exec, bindM, Infof, emit, appendLocalConn, updConns in *. cbn [fst snd].
    rewrite IH. cbn [localConns sshConns remoteConns setConns].
    rewrite !log_log, <- app_assoc. reflexivity.
  - cbn [acceptLoop accepted acceptEvents].
    unfold exec, bindM, Infof, emit in *. cbn [fst snd].
    rewrite IH. rewrite !log_log. reflexivity.
Qed.

(** [Start] when [net.Listen] succeeds. *)
Lemma Start_run_bound (s : SshTunnel) (w : World) :
  listenErr w (localTunnelEndpoint s) = None ->
  exec Start (s, w)
  = (setConns (localConns s ++ accepted (incoming w)) (sshConns s) (remoteConns s) s,
     log (acceptEvents (incoming w))
       (clearIncoming
          (deliver true
             (log [EInfof ("Starting local tunnel endpoint at " +:+ localTunnelEndpoint s);
                   EInfof ("Setting server tunnel endpoint at " +:+ serverTunnelEndpoint s);
                   EInfof ("Setting remote endpoint at " +:+ remoteEndpoint s);
                   EListen (localTunnelEndpoint s);
                   ESend true] w)))).
Proof.
  intros Hbind.
  pose proof (acceptLoop_run (incoming w) s) as Hloop.
  unfold exec, Start, send, netListen, takeIncoming, Infof, getS, bindM, emit in *.
  cbn [fst snd log listenErr]. rewrite Hbind. cbn [fst snd incoming deliver log].
  rewrite Hloop. f_equal. f_equal.
  apply World_eq_fields; cbn; try reflexivity.
  now rewrite <- !app_assoc.
Qed.

End MoreEngine.

Section Observations.
Local Open Scope list_scope.


Lemma logged_app (e1 e2 : list Event) : logged (e1 ++ e2) = logged e1 ++ logged e2.
Proof.
  induction e1 as [|e e1 IH]; [reflexivity |].
  destruct e; cbn; rewrite ?IH; reflexivity.
Qed.





End Observations.



Lemma Start_ready_value (s : Ssh.SshTunnel) (w : World) :
  exists b : bool,
    tunnelReady (snd (Ssh.exec Ssh.Start (s, w))) = (tunnelReady w ++ [b])%list
    /\ (b = true <-> listenErr w (Ssh.localTunnelEndpoint s) = None).
Proof.
  destruct (listenErr w (Ssh.localTunnelEndpoint s)) as [err |] eqn:Hbind.
  - exists false. rewrite (Start_run_bind_failure s w err Hbind). cbn. split; [reflexivity |].
    split; discriminate.
  - exists true. rewrite (Start_run_bound s w Hbind). cbn. split; [reflexivity |].
    split; reflexivity.
Qed.

(** X17: [Start] sends on the readiness channel exactly once, whatever
    happens afterwards: [true] if the listener is bound and [false] if
    not. *)
Theorem Start_sends_once (s : Ssh.SshTunnel) (w : World) :
  exists b : bool,
    tunnelReady (snd (Ssh.exec Ssh.Start (s, w))) = (tunnelReady w ++ [b])%list
    /\ (b = true <-> listenErr w (Ssh.localTunnelEndpoint s) = None).
Proof. apply Start_ready_value. Qed.

(** X18: [FastStartTunnel] over the registry of [init] never waits for
    ever: whatever the configuration and the world, it returns. *)
Theorem FastStartTunnel_returns (cfg : TunnelConfig) (w : World) :
  exists r w', FastStartTunnel CommunicationTunnelFactories cfg w = Some (r, w').
Proof.
  unfold FastStartTunnel.
  destruct (CommunicationTunnelFactories !! Protocol cfg) as [f |] eqn:Hf;
    [| eauto].
  unfold CommunicationTunnelFactories in Hf.
  apply lookup_insert_Some in Hf as [[_ <-] | [_ Hf]];
    [| rewrite lookup_empty in Hf; discriminate Hf].
  destruct (Ssh.SshTunnelFactory w cfg) as [t | e]; [| eauto].
  cbn [Start SshTunnel_Tunnel].
  destruct (Start_ready_value t (spawn GoStart (makeTunnelReady w))) as (b & Hready & _).
  destruct (Ssh.exec Ssh.Start (t, spawn GoStart (makeTunnelReady w))) as [t' w2].
  cbn [snd] in Hready. rewrite Hready. cbn. eauto.
Qed.

(** X19: when the engine is built and its listener bound,
    [FastStartTunnel] returns the engine after [true] was sent.  The
    engine has the name and the endpoints it was built with, and
    [localConns], which only [Start] writes, holds the connections
    accepted so far.  When none was accepted yet, the engine is as it was
    built and nothing has been closed. *)
Theorem FastStartTunnel_bound (w : World) (cfg : TunnelConfig) (t : Ssh.SshTunnel) :
  Protocol cfg = "SSH" ->
  Ssh.SshTunnelFactory w cfg = OK t ->
  listenErr w (Ssh.localTunnelEndpoint t) = None ->
  exists (t' : Ssh.SshTunnel) (w' : World),
    FastStartTunnel CommunicationTunnelFactories cfg w = Some (OK t', w')
    /\ tunnelReady w' = [true]
    /\ GetName t' = Protocol cfg
    /\ GetLocalEndpoint t' = GetLocalEndpoint t
    /\ GetRemoteEndpoint t' = GetRemoteEndpoint t
    /\ Ssh.localConns t' = accepted (incoming w)
    /\ (incoming w = [] -> t' = t /\ closed w' = closed w).
Proof.
  intros Hproto Hmk Hbind.
  assert (Hfresh : Ssh.localConns t = [] /\ Ssh.name t = Protocol cfg).
  { unfold Ssh.SshTunnelFactory in Hmk.
    destruct (Ssh.getSSHServerAddrAndPort cfg) as [[a p] | e];
      cbn [mbind result_bind] in Hmk; [| discriminate Hmk].
    injection Hmk as <-. cbn. auto. }
  destruct Hfresh as (Hl & Hn).
  unfold FastStartTunnel. rewrite Hproto, SSH_registered, Hmk.
  cbn [Start SshTunnel_Tunnel].
  rewrite (Start_run_bound t (spawn GoStart (makeTunnelReady w)) Hbind).
  cbn [tunnelReady log clearIncoming deliver spawn makeTunnelReady app incoming].
  rewrite Hl. cbn [app].
  eexists _, _. split; [reflexivity |]. split; [reflexivity |].
  split; [change (Ssh.name t = "SSH"); congruence |].
  split; [reflexivity |]. split; [reflexivity |]. split; [reflexivity |].
  intros Hnone. rewrite Hnone. cbn [accepted]. rewrite <- Hl at 1.
  rewrite setConns_same. split; reflexivity.
Qed.

Lemma FastStartTunnel_bound_witness :
  let w := {| randDraw := 123456789; listenErr := fun _ => None;
              incoming := [OK 1%nat; Err "too many open files"; OK 2%nat];
              closed := ∅; tunnelReady := []; trace := [] |} in
  Ssh.SshTunnelFactory w exampleConfig = OK exampleTunnel
  /\ exists t' w',
       FastStartTunnel CommunicationTunnelFactories exampleConfig w = Some (OK t', w')
       /\ tunnelReady w' = [true]
       /\ GetLocalEndpoint t' = "http://localhost:56789"
       /\ Ssh.localConns t' = [1%nat; 2%nat].
Proof.
  intros w. split; [reflexivity |].
  destruct (FastStartTunnel_bound w exampleConfig exampleTunnel eq_refl eq_refl eq_refl)
    as (t' & w' & Hret & Hready & _ & Hlocal & _ & Hconns & _).
  exists t', w'. split; [exact Hret |]. split; [exact Hready |].
  split; [exact Hlocal | exact Hconns].
Defined.

(** ** Pipelines *)

(** Unfolds a run of the engine down to the updates of the world. *)
Ltac run_engine :=
  unfold Ssh.exec, Ssh.forwardConnection, Ssh.appendSshConn,
    Ssh.appendRemoteConn, Ssh.updConns, Ssh.Close, Ssh.setIsClosed, Ssh.Infof,
    Ssh.getS, Ssh.bindM, Ssh.emit, Ssh.pureM;
  cbn [fst snd].

Ltac emitted_list :=
  unfold Ssh.emitted; cbn [trace log markClosed];
  rewrite <- ?app_assoc, drop_app_length; cbn [app].

(** X20: a pipeline whose dial fails gives back what it had opened and
    starts no copy task.  If the SSH dial fails, only the accepted socket
    is closed and no collection changes.  If the dial through the session
    fails, the accepted socket and the session are closed; the session
    stays in [sshConns], where it was put before the dial. *)
Theorem forwardConnection_dial_failures
    (s : Ssh.SshTunnel) (w : World) (localConn serverConn : nat)
    (err : string) (remoteDial : result nat) :
  (let st' := Ssh.exec (Ssh.forwardConnection localConn (Err err) remoteDial) (s, w) in
   fst st' = s
   /\ closedBy (Ssh.emitted w (snd st')) = [NetConn localConn]
   /\ closed (snd st') = {[NetConn localConn]} ∪ closed w
   /\ spawned (Ssh.emitted w (snd st')) = [])
  /\
  (let st' := Ssh.exec (Ssh.forwardConnection localConn (OK serverConn) (Err err)) (s, w) in
   fst st' = setConns (Ssh.localConns s) (Ssh.sshConns s ++ [serverConn])%list
               (Ssh.remoteConns s) s
   /\ closedBy (Ssh.emitted w (snd st')) = [NetConn localConn; SshClient serverConn]
   /\ closed (snd st') = {[SshClient serverConn]} ∪ ({[NetConn localConn]} ∪ closed w)
   /\ spawned (Ssh.emitted w (snd st')) = []).
Proof.
  split; intros st'; subst st'; run_engine.
  - split; [reflexivity |]. split; [now emitted_list |].
    split; [reflexivity | now emitted_list].
  - split; [reflexivity |]. split; [now emitted_list |].
    split; [reflexivity | now emitted_list].
Qed.

(** X21: a pipeline whose two dials succeed appends the session to
    [sshConns] and the stream to [remoteConns], closes nothing, and starts
    the two copy tasks, one per direction. *)
Theorem forwardConnection_established
    (s : Ssh.SshTunnel) (w : World) (localConn serverConn remoteConn : nat) :
  let st' := Ssh.exec (Ssh.forwardConnection localConn (OK serverConn) (OK remoteConn))
               (s, w) in
  fst st' = setConns (Ssh.localConns s) (Ssh.sshConns s ++ [serverConn])%list
              (Ssh.remoteConns s ++ [remoteConn])%list s
  /\ spawned (Ssh.emitted w (snd st'))
     = [GoForwarder localConn remoteConn; GoForwarder remoteConn localConn]
  /\ closedBy (Ssh.emitted w (snd st')) = []
  /\ closed (snd st') = closed w.
Proof.
  intros st'; subst st'; run_engine.
  split; [reflexivity |]. split; [now emitted_list |].
  split; [now emitted_list | reflexivity].
Qed.


(** ** The two copy tasks of a pipeline *)

Section CopyTasks.
Import Ssh.
Local Open Scope list_scope.

(** What every statement of either task keeps holds after any schedule. *)
Lemma copyTasks_invariant (localConn remoteConn serverConn : nat)
    (copyErr1 copyErr2 : option string) (I : Pipeline -> St -> Prop) :
  (forall side p st,
      I p st ->
      I (fst (copyTaskStep localConn remoteConn serverConn copyErr1 copyErr2 side p st))
        (snd (copyTaskStep localConn remoteConn serverConn copyErr1 copyErr2 side p st))) ->
  forall sched p st,
    I p st ->
    I (fst (copyTasks localConn remoteConn serverConn copyErr1 copyErr2 sched p st))
      (snd (copyTasks localConn remoteConn serverConn copyErr1 copyErr2 sched p st)).
Proof.
  intros Hstep sched. induction sched as [|side sched IH]; intros p st Hp; [exact Hp |].
  cbn [copyTasks].
  destruct (isPanicked (pcFirst p) || isPanicked (pcSecond p))%bool; [exact Hp |].
  unfold bindM. specialize (Hstep side p st Hp).
  destruct (copyTaskStep localConn remoteConn serverConn copyErr1 copyErr2 side p st)
    as [p' st'].
  apply IH, Hstep.
Qed.

(** The events since [w], when the trace of [w'] extends that of [w]. *)
Lemma emitted_since (w w' : World) (events : list Event) :
  trace w' = trace w ++ events -> emitted w w' = events.
Proof. intros H. unfold emitted. now rewrite H, drop_app_length. Qed.

End CopyTasks.

(** One statement of one of the two tasks, by cases on where the task
    stands and on what it reads. *)
Ltac copy_step side pc1 pc2 :=
  destruct side;
  [destruct pc1 as [| | | | | | | | [|] | [|] | |]
  | destruct pc2 as [| | | | | | | | [|] | [|] | |]];
  unfold Ssh.copyTaskStep, Ssh.forwarderStep, Ssh.Close, Ssh.setIsClosed, Ssh.Infof,
    Ssh.getS, Ssh.bindM, Ssh.emit, Ssh.pureM;
  cbn [fst snd Ssh.pcFirst Ssh.pcSecond Ssh.errVar].

(** X22: a pipeline whose two copies end at end of stream.  Whatever the
    order in which the statements of its two tasks run, neither task
    panics, nothing is logged, the engine is left as it is ([isClosed] is
    not set), the SSH session is closed afterwards only if it was before,
    nothing but the two ends of the pipeline is closed, and a task that
    has returned has closed both ends. *)
Theorem copyTasks_end_of_stream
    (s : Ssh.SshTunnel) (w : World)
    (localConn remoteConn serverConn : nat) (sched : list Ssh.Side) :
  let run := Ssh.copyTasks localConn remoteConn serverConn None None sched
               Ssh.started (s, w) in
  Ssh.pcFirst (fst run) <> Ssh.Panicked
  /\ Ssh.pcSecond (fst run) <> Ssh.Panicked
  /\ fst (snd run) = s
  /\ logged (Ssh.emitted w (snd (snd run))) = []
  /\ (SshClient serverConn ∈ closed (snd (snd run)) <-> SshClient serverConn ∈ closed w)
  /\ (forall h, h ∈ closed (snd (snd run)) ->
                h ∈ closed w \/ h = NetConn localConn \/ h = NetConn remoteConn)
  /\ (Ssh.pcFirst (fst run) = Ssh.Returned \/ Ssh.pcSecond (fst run) = Ssh.Returned ->
      NetConn localConn ∈ closed (snd (snd run))
      /\ NetConn remoteConn ∈ closed (snd (snd run))).
Proof.
  intros run.
  pose (quiet := [Ssh.InCopy; Ssh.AtTest; Ssh.AtDeferReader false;
                  Ssh.AtDeferWriter false; Ssh.Returned]).
  pose (I := fun (p : Ssh.Pipeline) (st : Ssh.St) =>
               Ssh.errVar p = None
               /\ In (Ssh.pcFirst p) quiet /\ In (Ssh.pcSecond p) quiet
               /\ fst st = s
               /\ (exists events, trace (snd st) = (trace w ++ events)%list
                                  /\ logged events = [])
               /\ closed w ⊆ closed (snd st)
               /\ (forall h, h ∈ closed (snd st) ->
                             h ∈ closed w \/ h = NetConn localConn
                             \/ h = NetConn remoteConn)
               /\ (In (Ssh.pcFirst p) [Ssh.AtDeferWriter false; Ssh.Returned] ->
                   NetConn remoteConn ∈ closed (snd st))
               /\ (Ssh.pcFirst p = Ssh.Returned -> NetConn localConn ∈ closed (snd st))
               /\ (In (Ssh.pcSecond p) [Ssh.AtDeferWriter false; Ssh.Returned] ->
                   NetConn localConn ∈ closed (snd st))
               /\ (Ssh.pcSecond p = Ssh.Returned -> NetConn remoteConn ∈ closed (snd st))).
  assert (Hrun : I (fst run) (snd run)).
  { subst run. apply copyTasks_invariant; subst I; cbn beta.
    - clear. intros side p [s' w'] (He & H1 & H2 & Hs & (events & Htr & Hlog) & Hsub
                                     & Hown & Hr1 & Hw1 & Hr2 & Hw2).
      destruct p as [pc1 pc2 e]. cbn [fst snd Ssh.pcFirst Ssh.pcSecond Ssh.errVar] in *.
      subst s' e quiet.
      copy_step side pc1 pc2; cbn [In] in H1, H2, Hr1, Hr2;
        cbn [fst snd Ssh.pcFirst Ssh.pcSecond Ssh.errVar];
        try solve [no_such_event H1]; try solve [no_such_event H2];
        (split; [reflexivity |]);
        (split; [cbn [In]; auto 8 |]); (split; [cbn [In]; auto 8 |]);
        (split; [reflexivity |]);
        (split; [cbn [trace log markClosed]; rewrite Htr, <- ?app_assoc;
                 eexists; split; [reflexivity |];
                 rewrite ?logged_app, Hlog; reflexivity |]);
        cbn [closed log markClosed In];
        (split; [first [exact Hsub
                       | etransitivity; [exact Hsub | apply union_subseteq_r]] |]);
        (split; [intros h; rewrite ?elem_of_union, ?elem_of_singleton;
                 intros Hh;
                 first [exact (Hown h Hh)
                       | destruct Hh as [Hh | Hh]; [auto | exact (Hown h Hh)]] |]);
        repeat split; intros Hpc; try discriminate Hpc;
        try solve [no_such_event Hpc];
        rewrite ?elem_of_union, ?elem_of_singleton; auto 8.
    - subst quiet. cbn [Ssh.started Ssh.pcFirst Ssh.pcSecond Ssh.errVar fst snd In].
      split; [reflexivity |]. split; [auto |]. split; [auto |].
      split; [reflexivity |].
      split; [exists []; now rewrite app_nil_r |].
      split; [reflexivity |]. split; [auto |].
      repeat split; intros Hpc; try discriminate Hpc; no_such_event Hpc. }
  destruct Hrun as (He & H1 & H2 & Hs & (events & Htr & Hlog) & Hsub
                    & Hown & Hr1 & Hw1 & Hr2 & Hw2).
  subst quiet. cbn [In] in *.
  split; [intros E; rewrite E in H1; no_such_event H1 |].
  split; [intros E; rewrite E in H2; no_such_event H2 |].
  split; [exact Hs |].
  split; [now rewrite (emitted_since _ _ _ Htr) |].
  split; [split; [intros Hin; destruct (Hown _ Hin) as [H | [H | H]];
                  [exact H | discriminate H | discriminate H]
                 | apply Hsub] |].
  split; [exact Hown |].
  intros [E | E].
  - split; [now apply Hw1 | apply Hr1; rewrite E; tauto].
  - split; [apply Hr2; rewrite E; tauto | now apply Hw2].
Qed.

(** What the two tasks of a pipeline close, whatever their copies return
    and in whatever order their statements run, a panic included: a
    handle closed afterwards was closed before or is the pipeline's
    socket, stream or session; nothing closed is open again; and once a
    task has ended, both ends of the pipeline are closed. *)
Lemma copyTasks_close_their_own
    (s : Ssh.SshTunnel) (w : World) (localConn remoteConn serverConn : nat)
    (copyErr1 copyErr2 : option string) (sched : list Ssh.Side) :
  let run := Ssh.copyTasks localConn remoteConn serverConn copyErr1 copyErr2 sched
               Ssh.started (s, w) in
  closed w ⊆ closed (snd (snd run))
  /\ (forall h, h ∈ closed (snd (snd run)) ->
                h ∈ closed w
                \/ In h [NetConn localConn; NetConn remoteConn; SshClient serverConn])
  /\ (In (Ssh.pcFirst (fst run)) [Ssh.Returned; Ssh.Panicked]
      \/ In (Ssh.pcSecond (fst run)) [Ssh.Returned; Ssh.Panicked] ->
      NetConn localConn ∈ closed (snd (snd run))
      /\ NetConn remoteConn ∈ closed (snd (snd run))).
Proof.
  intros run.
  pose (I := fun (p : Ssh.Pipeline) (st : Ssh.St) =>
               closed w ⊆ closed (snd st)
               /\ (forall h, h ∈ closed (snd st) ->
                             h ∈ closed w \/ h = NetConn localConn
                             \/ h = NetConn remoteConn \/ h = SshClient serverConn)
               /\ (In (Ssh.pcFirst p) [Ssh.AtDeferWriter false; Ssh.AtDeferWriter true;
                                       Ssh.Returned; Ssh.Panicked] ->
                   NetConn remoteConn ∈ closed (snd st))
               /\ (In (Ssh.pcFirst p) [Ssh.Returned; Ssh.Panicked] ->
                   NetConn localConn ∈ closed (snd st))
               /\ (In (Ssh.pcSecond p) [Ssh.AtDeferWriter false; Ssh.AtDeferWriter true;
                                        Ssh.Returned; Ssh.Panicked] ->
                   NetConn localConn ∈ closed (snd st))
               /\ (In (Ssh.pcSecond p) [Ssh.Returned; Ssh.Panicked] ->
                   NetConn remoteConn ∈ closed (snd st))).
  assert (Hrun : I (fst run) (snd run)).
  { subst run. apply copyTasks_invariant; subst I; cbn beta.
    - clear. intros side p [s' w'] (Hsub & Hown & Hr1 & Hw1 & Hr2 & Hw2).
      destruct p as [pc1 pc2 e]. cbn [fst snd Ssh.pcFirst Ssh.pcSecond Ssh.errVar] in *.
      copy_step side pc1 pc2; cbn [In] in Hr1, Hw1, Hr2, Hw2;
        try (destruct e; cbn [fst snd Ssh.pcFirst Ssh.pcSecond Ssh.errVar]);
        try (destruct (Ssh.willClose s');
             cbn [negb fst snd Ssh.pcFirst Ssh.pcSecond Ssh.errVar]);
        cbn [closed log markClosed In];
        (split; [first [exact Hsub
                       | etransitivity; [exact Hsub | apply union_subseteq_r]] |]);
        (split; [intros h; rewrite ?elem_of_union, ?elem_of_singleton;
                 intros Hh;
                 first [exact (Hown h Hh)
                       | destruct Hh as [Hh | Hh]; [auto | exact (Hown h Hh)]] |]);
        repeat split; intros Hpc; try solve [no_such_event Hpc];
        rewrite ?elem_of_union, ?elem_of_singleton; auto 8.
    - cbn [Ssh.started Ssh.pcFirst Ssh.pcSecond Ssh.errVar fst snd In].
      split; [reflexivity |]. split; [auto |].
      repeat split; intros Hpc; no_such_event Hpc. }
  destruct Hrun as (Hsub & Hown & Hr1 & Hw1 & Hr2 & Hw2). cbn [In] in *.
  split; [exact Hsub |].
  split; [intros h Hh; destruct (Hown h Hh) as [H | [H | [H | H]]]; auto |].
  intros [Hpc | Hpc].
  - split; [apply Hw1 | apply Hr1]; destruct Hpc as [<- | [<- | []]]; auto 8.
  - split; [apply Hr2 | apply Hw2]; destruct Hpc as [<- | [<- | []]]; auto 8.
Qed.

(** Unfolds an uninterrupted run of a copy task. *)
Ltac run_forwarder :=
  unfold Ssh.exec, Ssh.forwarderFunc, Ssh.bindM;
  cbn [Ssh.forwarderSteps];
  unfold Ssh.forwarderStep, Ssh.Close, Ssh.setIsClosed, Ssh.Infof, Ssh.getS,
    Ssh.bindM, Ssh.emit, Ssh.pureM;
  cbn [fst snd].

(** X23: however a copy task ends, its reader and its writer are closed
    when it returns, and it closes nothing but the handles of its own
    pipeline: a handle closed afterwards was closed before or is the
    pipeline's socket, stream or session.  So it is of a task that runs
    alone, and of the two tasks of a pipeline together under every
    schedule, whatever each of them reads in [err] and also when one
    panics: once a task has ended, both ends of the pipeline are
    closed. *)
Theorem forwarderFunc_closes_its_own
    (s : Ssh.SshTunnel) (w : World)
    (localConn remoteConn serverConn writer reader : nat) (copyErr : option string) :
  (let st' := Ssh.exec
                (Ssh.forwarderFunc localConn remoteConn serverConn writer reader copyErr)
                (s, w) in
   NetConn reader ∈ closed (snd st')
   /\ NetConn writer ∈ closed (snd st')
   /\ forall h, h ∈ closed (snd st') ->
                h ∈ closed w
                \/ In h [NetConn localConn; NetConn remoteConn; SshClient serverConn;
                         NetConn reader; NetConn writer])
  /\
  (forall (copyErr2 : option string) (sched : list Ssh.Side),
      let run := Ssh.copyTasks localConn remoteConn serverConn copyErr copyErr2 sched
                   Ssh.started (s, w) in
      closed w ⊆ closed (snd (snd run))
      /\ (forall h, h ∈ closed (snd (snd run)) ->
                    h ∈ closed w
                    \/ In h [NetConn localConn; NetConn remoteConn;
                             SshClient serverConn])
      /\ (In (Ssh.pcFirst (fst run)) [Ssh.Returned; Ssh.Panicked]
          \/ In (Ssh.pcSecond (fst run)) [Ssh.Returned; Ssh.Panicked] ->
          NetConn localConn ∈ closed (snd (snd run))
          /\ NetConn remoteConn ∈ closed (snd (snd run)))).
Proof.
  split; [| intros copyErr2 sched; apply copyTasks_close_their_own].
  intros st'; subst st'. destruct copyErr as [err |]; run_forwarder;
    [destruct (Ssh.willClose s); cbn [negb fst snd] |];
    cbn [closed markClosed log fst snd];
    (split; [| split]);
    try (rewrite !elem_of_union, !elem_of_singleton; tauto);
    (intros h; rewrite !elem_of_union, !elem_of_singleton; cbn [In]; intuition auto).
Qed.

(** X29: a copy error can end the program.  [err] is read twice, by the
    test [err != nil] and by [err.Error()].  When the other task's
    [io.Copy] returns nil between the two, [err.Error()] is called on
    nil: the task panics, after its deferred calls have closed both ends
    of the pipeline; nothing is logged and neither the SSH session nor
    [isClosed] is touched. *)
Theorem copy_error_can_panic
    (s : Ssh.SshTunnel) (w : World)
    (localConn remoteConn serverConn : nat) (err : string) :
  Ssh.willClose s = false ->
  (SshClient serverConn ∉ closed w) ->
  let run := Ssh.copyTasks localConn remoteConn serverConn (Some err) None
               [Ssh.First; Ssh.First; Ssh.First; Ssh.Second;
                Ssh.First; Ssh.First; Ssh.First]
               Ssh.started (s, w) in
  Ssh.pcFirst (fst run) = Ssh.Panicked
  /\ Ssh.emitted w (snd (snd run))
     = [ECopy localConn remoteConn; ECopy remoteConn localConn;
        EClose (NetConn remoteConn); EClose (NetConn localConn)]
  /\ (SshClient serverConn ∉ closed (snd (snd run)))
  /\ fst (snd run) = s
  /\ (forall sched,
         Ssh.copyTasks localConn remoteConn serverConn (Some err) None sched
           (fst run) (snd run)
         = (fst run, snd run)).
Proof.
  intros Hflag Hopen run. subst run.
  unfold Ssh.copyTasks, Ssh.copyTaskStep, Ssh.forwarderStep, Ssh.started,
    Ssh.Close, Ssh.getS, Ssh.bindM, Ssh.emit, Ssh.pureM.
  cbn [fst snd Ssh.pcFirst Ssh.pcSecond Ssh.errVar Ssh.isPanicked orb].
  rewrite Hflag. cbn [negb fst snd Ssh.pcFirst Ssh.pcSecond Ssh.errVar Ssh.isPanicked orb].
  split; [reflexivity |].
  split; [apply emitted_app; cbn; now rewrite <- !app_assoc |].
  split; [| split; [reflexivity |]].
  - cbn [closed markClosed log]. rewrite !elem_of_union, !elem_of_singleton.
    intros [H | [H | H]]; [discriminate H | discriminate H | exact (Hopen H)].
  - intros [|side sched]; reflexivity.
Qed.

Lemma copy_error_can_panic_witness :
  let run := Ssh.copyTasks 1 3 2 (Some "connection reset by peer") None
               [Ssh.First; Ssh.First; Ssh.First; Ssh.Second;
                Ssh.First; Ssh.First; Ssh.First]
               Ssh.started (exampleTunnel, busyWorld) in
  Ssh.willClose exampleTunnel = false
  /\ Ssh.pcFirst (fst run) = Ssh.Panicked
  /\ Ssh.pcSecond (fst run) = Ssh.AtTest.
Proof.
  intros run. split; [reflexivity |].
  assert (Hopen : SshClient 2 ∉ closed busyWorld) by (cbn; set_solver).
  pose proof (copy_error_can_panic exampleTunnel busyWorld 1 3 2
                "connection reset by peer" eq_refl Hopen) as H.
  cbv zeta in H. destruct H as (Hpc & _).
  split; [exact Hpc | reflexivity].
Defined.

(** A copy task that ends with an I/O error and runs to its end before
    the other task of the pipeline assigns [err], as when that
    task is still in [io.Copy]: the error is logged if and only if
    [willClose] is false when the task reads it; in either case the
    socket, the stream and the session of the pipeline are closed, in
    that order, [isClosed] is set, and the deferred calls close the
    reader and the writer.  This is the run of the two tasks under the
    schedule that lets that task alone take its ten statements. *)
Lemma forwarderFunc_alone
    (s : Ssh.SshTunnel) (w : World)
    (localConn remoteConn serverConn writer reader : nat) (err : string) :
  let st' := Ssh.exec
               (Ssh.forwarderFunc localConn remoteConn serverConn writer reader (Some err))
               (s, w) in
  let unexpected :=
    EInfof ("[!] I/O copy error when forwarding through tunnel: " +:+ err) in
  Ssh.emitted w (snd st')
  = ([ECopy writer reader]
     ++ (if Ssh.willClose s then [] else [unexpected])
     ++ [EClose (NetConn localConn); EClose (NetConn remoteConn);
         EClose (SshClient serverConn); EStore IsClosed true;
         EClose (NetConn reader); EClose (NetConn writer)])%list
  /\ (In unexpected (Ssh.emitted w (snd st')) <-> Ssh.willClose s = false)
  /\ ((exists format, In (EInfof format) (Ssh.emitted w (snd st')))
      <-> Ssh.willClose s = false)
  /\ NetConn localConn ∈ closed (snd st')
  /\ NetConn remoteConn ∈ closed (snd st')
  /\ SshClient serverConn ∈ closed (snd st')
  /\ Ssh.isClosed (fst st') = true
  /\ (forall copyErr2,
         Ssh.copyTasks localConn remoteConn serverConn (Some err) copyErr2
           (replicate 10 Ssh.First) Ssh.started (s, w)
         = ({| Ssh.pcFirst := Ssh.Returned; Ssh.pcSecond := Ssh.InCopy;
               Ssh.errVar := Some err |},
            Ssh.exec
              (Ssh.forwarderFunc localConn remoteConn serverConn localConn remoteConn
                 (Some err))
              (s, w)))
  /\ (forall copyErr1,
         Ssh.copyTasks localConn remoteConn serverConn copyErr1 (Some err)
           (replicate 10 Ssh.Second) Ssh.started (s, w)
         = ({| Ssh.pcFirst := Ssh.InCopy; Ssh.pcSecond := Ssh.Returned;
               Ssh.errVar := Some err |},
            Ssh.exec
              (Ssh.forwarderFunc localConn remoteConn serverConn remoteConn localConn
                 (Some err))
              (s, w))).
Proof.
  intros st' unexpected.
  assert (Hrun : st' = (Ssh.setFlags (Ssh.willClose s) true s,
                        Ssh.closeAll [NetConn reader; NetConn writer]
                          (log [EStore IsClosed true]
                             (Ssh.closeAll [NetConn localConn; NetConn remoteConn;
                                            SshClient serverConn]
                                (if Ssh.willClose s then log [ECopy writer reader] w
                                 else log [unexpected] (log [ECopy writer reader] w)))))).
  { subst st' unexpected. run_forwarder.
    destruct (Ssh.willClose s) eqn:E; cbn; rewrite ?E; reflexivity. }
  assert (Hem : Ssh.emitted w (snd st')
                = ([ECopy writer reader]
                   ++ (if Ssh.willClose s then [] else [unexpected])
                   ++ [EClose (NetConn localConn); EClose (NetConn remoteConn);
                       EClose (SshClient serverConn); EStore IsClosed true;
                       EClose (NetConn reader); EClose (NetConn writer)])%list).
  { apply emitted_app. rewrite Hrun. destruct (Ssh.willClose s); cbn;
      rewrite <- ?app_assoc; reflexivity. }
  split; [exact Hem |]. rewrite Hem.
  split; [| split; [| split; [| split; [| split; [| split; [| split]]]]]].
  - destruct (Ssh.willClose s); cbn; split; try done.
    + intros H. no_such_event H.
    + intros _. right. now left.
  - destruct (Ssh.willClose s); cbn; split; try done.
    + intros (format & H). no_such_event H.
    + intros _. exists ("[!] I/O copy error when forwarding through tunnel: " +:+ err).
      right. now left.
  - rewrite Hrun. destruct (Ssh.willClose s); cbn; set_solver.
  - rewrite Hrun. destruct (Ssh.willClose s); cbn; set_solver.
  - rewrite Hrun. destruct (Ssh.willClose s); cbn; set_solver.
  - rewrite Hrun. reflexivity.
  - intros copyErr2. cbn [replicate Ssh.copyTasks]. run_forwarder.
    unfold Ssh.copyTaskStep, Ssh.forwarderStep, Ssh.started, Ssh.Close,
      Ssh.setIsClosed, Ssh.Infof, Ssh.getS, Ssh.bindM, Ssh.emit, Ssh.pureM.
    cbn [fst snd Ssh.pcFirst Ssh.pcSecond Ssh.errVar Ssh.isPanicked orb].
    destruct (Ssh.willClose s) eqn:E; cbn; rewrite ?E; reflexivity.
  - intros copyErr1. cbn [replicate Ssh.copyTasks]. run_forwarder.
    unfold Ssh.copyTaskStep, Ssh.forwarderStep, Ssh.started, Ssh.Close,
      Ssh.setIsClosed, Ssh.Infof, Ssh.getS, Ssh.bindM, Ssh.emit, Ssh.pureM.
    cbn [fst snd Ssh.pcFirst Ssh.pcSecond Ssh.errVar Ssh.isPanicked orb].
    destruct (Ssh.willClose s) eqn:E; cbn; rewrite ?E; reflexivity.
Qed.

(** X30: a pipeline whose two copies both end with an I/O error.
    Whatever the order in which the statements of its two tasks run,
    [err] is never nil once a copy has returned, so neither task panics;
    a task that has returned leaves the socket, the stream and the
    session of the pipeline closed and [isClosed] set, and an error has
    been logged by then if [willClose] was false; with [willClose] set
    nothing is logged.  A line that is logged carries one of the two
    errors, not always that of the task that logs it. *)
Theorem copyTasks_both_fail
    (s : Ssh.SshTunnel) (w : World) (localConn remoteConn serverConn : nat)
    (err1 err2 : string) (sched : list Ssh.Side) :
  let run := Ssh.copyTasks localConn remoteConn serverConn (Some err1) (Some err2)
               sched Ssh.started (s, w) in
  let lines := logged (Ssh.emitted w (snd (snd run))) in
  Ssh.pcFirst (fst run) <> Ssh.Panicked
  /\ Ssh.pcSecond (fst run) <> Ssh.Panicked
  /\ (forall line, In line lines ->
        line = "[!] I/O copy error when forwarding through tunnel: " +:+ err1
        \/ line = "[!] I/O copy error when forwarding through tunnel: " +:+ err2)
  /\ (Ssh.willClose s = true -> lines = [])
  /\ (Ssh.pcFirst (fst run) = Ssh.Returned \/ Ssh.pcSecond (fst run) = Ssh.Returned ->
      NetConn localConn ∈ closed (snd (snd run))
      /\ NetConn remoteConn ∈ closed (snd (snd run))
      /\ SshClient serverConn ∈ closed (snd (snd run))
      /\ Ssh.isClosed (fst (snd run)) = true
      /\ (Ssh.willClose s = false -> lines <> [])).
Proof.
  intros run lines.
  pose (msg := fun e => "[!] I/O copy error when forwarding through tunnel: " +:+ e).
  pose (torn := fun (pc : Ssh.Pc) (st : Ssh.St) (events : list Event) =>
                  (pc = Ssh.AtLog -> Ssh.willClose s = false)
                  /\ ~ In pc [Ssh.AtDeferReader true; Ssh.AtDeferWriter true; Ssh.Panicked]
                  /\ (In pc [Ssh.AtCloseLocal; Ssh.AtCloseRemote; Ssh.AtCloseServer;
                             Ssh.AtSetClosed; Ssh.AtDeferReader false;
                             Ssh.AtDeferWriter false; Ssh.Returned] ->
                      Ssh.willClose s = false -> logged events <> [])
                  /\ (In pc [Ssh.AtCloseRemote; Ssh.AtCloseServer; Ssh.AtSetClosed;
                             Ssh.AtDeferReader false; Ssh.AtDeferWriter false;
                             Ssh.Returned] ->
                      NetConn localConn ∈ closed (snd st))
                  /\ (In pc [Ssh.AtCloseServer; Ssh.AtSetClosed; Ssh.AtDeferReader false;
                             Ssh.AtDeferWriter false; Ssh.Returned] ->
                      NetConn remoteConn ∈ closed (snd st))
                  /\ (In pc [Ssh.AtSetClosed; Ssh.AtDeferReader false;
                             Ssh.AtDeferWriter false; Ssh.Returned] ->
                      SshClient serverConn ∈ closed (snd st))
                  /\ (In pc [Ssh.AtDeferReader false; Ssh.AtDeferWriter false;
                             Ssh.Returned] ->
                      Ssh.isClosed (fst st) = true)).
  pose (I := fun (p : Ssh.Pipeline) (st : Ssh.St) =>
               Ssh.willClose (fst st) = Ssh.willClose s
               /\ (Ssh.errVar p = None \/ Ssh.errVar p = Some err1
                   \/ Ssh.errVar p = Some err2)
               /\ (Ssh.errVar p = None ->
                   Ssh.pcFirst p = Ssh.InCopy /\ Ssh.pcSecond p = Ssh.InCopy)
               /\ exists events,
                   trace (snd st) = (trace w ++ events)%list
                   /\ (forall line, In line (logged events) ->
                                    line = msg err1 \/ line = msg err2)
                   /\ (Ssh.willClose s = true -> logged events = [])
                   /\ torn (Ssh.pcFirst p) st events
                   /\ torn (Ssh.pcSecond p) st events).
  assert (Hrun : I (fst run) (snd run)).
  { subst run. apply copyTasks_invariant; subst I torn msg; cbn beta.
    - clear. intros side p [s' w']
        (Hflag & He & Hnil & events & Htr & Hlines & Hquiet
         & (Hlog1 & Hpanic1 & Hdone1 & Hl1 & Hr1 & Hc1 & Hi1)
         & (Hlog2 & Hpanic2 & Hdone2 & Hl2 & Hr2 & Hc2 & Hi2)).
      destruct p as [pc1 pc2 e]. cbn [fst snd Ssh.pcFirst Ssh.pcSecond Ssh.errVar] in *.
      copy_step side pc1 pc2;
        cbn [In] in Hpanic1, Hpanic2, Hdone1, Hdone2, Hl1, Hl2, Hr1, Hr2, Hc1, Hc2,
                    Hi1, Hi2;
        try (exfalso; apply Hpanic1; solve [auto 8]);
        try (exfalso; apply Hpanic2; solve [auto 8]);
        try match goal with
            | |- context [match e with _ => _ end] =>
                destruct e as [x |];
                [| exfalso; destruct (Hnil eq_refl) as [Hnil1 Hnil2];
                   first [discriminate Hnil1 | discriminate Hnil2]]
            end;
        try (destruct (Ssh.willClose s') eqn:Ew);
        cbn [negb fst snd Ssh.pcFirst Ssh.pcSecond Ssh.errVar Ssh.willClose
               Ssh.isClosed Ssh.setFlags];
        (split; [congruence |]);
        (split; [auto |]);
        (split; [first [exact Hnil
                       | intros Hn; first [discriminate Hn
                                          | destruct (Hnil Hn) as [Hnil1 Hnil2];
                                            first [discriminate Hnil1
                                                  | discriminate Hnil2]]] |]);
        cbn [trace log markClosed closed]; rewrite Htr, <- ?app_assoc;
        eexists; (split; [reflexivity |]);
        rewrite ?logged_app; cbn [logged]; rewrite ?app_nil_r;
        cbn [In]; repeat split;
        first
          [ assumption
          | reflexivity
          | congruence
          | solve [intros Hpc; discriminate Hpc]
          | solve [match goal with
                   | |- ~ (_ \/ _) => intros Hpc; no_such_event Hpc
                   | |- (_ \/ _) -> _ => intros Hpc; no_such_event Hpc
                   end]
          | solve [intros Hpc; rewrite ?elem_of_union, ?elem_of_singleton; auto 10]
          | solve [intros Hpc Hw; congruence]
          | solve [auto 10]
          | solve [intros Hpc Hw Habs; apply app_eq_nil in Habs as [_ Habs];
                   discriminate Habs]
          | solve [intros Hw; exfalso;
                   first [rewrite (Hlog1 eq_refl) in Hw | rewrite (Hlog2 eq_refl) in Hw];
                   discriminate Hw]
          | solve [intros line Hin; apply in_app_iff in Hin as [Hin | [<- | []]];
                   [auto |];
                   destruct He as [He | [He | He]];
                   [discriminate He | injection He as ->; auto
                   | injection He as ->; auto]]
          ].
    - cbn [Ssh.started Ssh.pcFirst Ssh.pcSecond Ssh.errVar fst snd].
      split; [reflexivity |]. split; [auto |]. split; [auto |].
      exists []. rewrite app_nil_r. cbn [logged In].
      repeat split; first [tauto | discriminate
                          | solve [intros Hpc; no_such_event Hpc]]. }
  destruct Hrun as (Hflag & He & Hnil & events & Htr & Hlines & Hquiet
                    & (Hlog1 & Hpanic1 & Hdone1 & Hl1 & Hr1 & Hc1 & Hi1)
                    & (Hlog2 & Hpanic2 & Hdone2 & Hl2 & Hr2 & Hc2 & Hi2)).
  subst lines msg. rewrite (emitted_since _ _ _ Htr). cbn [In] in *.
  split; [intros E; apply Hpanic1; rewrite E; auto 8 |].
  split; [intros E; apply Hpanic2; rewrite E; auto 8 |].
  split; [exact Hlines |]. split; [exact Hquiet |].
  intros [E | E]; rewrite E in *.
  - split; [apply Hl1; auto 10 |]. split; [apply Hr1; auto 10 |].
    split; [apply Hc1; auto 10 |]. split; [apply Hi1; auto 10 |].
    apply Hdone1; auto 10.
  - split; [apply Hl2; auto 10 |]. split; [apply Hr2; auto 10 |].
    split; [apply Hc2; auto 10 |]. split; [apply Hi2; auto 10 |].
    apply Hdone2; auto 10.
Qed.

(** ** What holds over the whole life of an engine *)

Section Lifecycle.
Import Ssh.
Local Open Scope list_scope.

Lemma sameIdentity_refl (s : SshTunnel) : sameIdentity s s.
Proof. unfold sameIdentity. tauto. Qed.

Lemma flagsKept_refl (s : SshTunnel) : flagsKept s s.
Proof. unfold flagsKept. tauto. Qed.

Lemma worldGrows_refl (w : World) : worldGrows w w.
Proof. unfold worldGrows. repeat split; auto. Qed.

Lemma evolves_refl (st : St) : evolves st st.
Proof.
  split; [apply sameIdentity_refl |]. split; [apply flagsKept_refl | apply worldGrows_refl].
Qed.

Lemma evolves_trans (st1 st2 st3 : St) :
  evolves st1 st2 -> evolves st2 st3 -> evolves st1 st3.
Proof.
  intros (Hi & Hg & Hw) (Hi' & Hg' & Hw').
  destruct Hi as (? & ? & ? & ? & ? & ? & ? & ?).
  destruct Hi' as (? & ? & ? & ? & ? & ? & ? & ?).
  destruct Hg as (? & ?), Hg' as (? & ?).
  destruct Hw as (? & ? & ? & ?), Hw' as (? & ? & ? & ?).
  split; [| split].
  - unfold sameIdentity. repeat split; congruence.
  - unfold flagsKept. split; auto.
  - unfold worldGrows. repeat split; try (etransitivity; eassumption); congruence.
Qed.

Lemma worldGrows_log (events : list Event) (w : World) : worldGrows w (log events w).
Proof. unfold worldGrows; cbn. repeat split; auto. now apply prefix_app_r. Qed.

Lemma worldGrows_markClosed (h : Handle) (w : World) : worldGrows w (markClosed h w).
Proof. unfold worldGrows; cbn. repeat split; auto. apply union_subseteq_r. Qed.

Lemma worldGrows_deliver (b : bool) (w : World) : worldGrows w (deliver b w).
Proof. unfold worldGrows; cbn. repeat split; auto. Qed.

Lemma worldGrows_clearIncoming (w : World) : worldGrows w (clearIncoming w).
Proof. unfold worldGrows; cbn. repeat split; auto. Qed.

Lemma worldGrows_trans (w1 w2 w3 : World) :
  worldGrows w1 w2 -> worldGrows w2 w3 -> worldGrows w1 w3.
Proof.
  intros (? & ? & ? & ?) (? & ? & ? & ?).
  unfold worldGrows. repeat split; try (etransitivity; eassumption); congruence.
Qed.

(** A statement that only acts on the world. *)
Lemma evolves_world (s : SshTunnel) (w w' : World) :
  worldGrows w w' -> evolves (s, w) (s, w').
Proof.
  intros Hw. split; [apply sameIdentity_refl |]. split; [apply flagsKept_refl | exact Hw].
Qed.

(** No statement writes the identity of the engine, lowers a flag,
    reopens a handle or takes an event back. *)
Lemma evolves_stmt (x : Stmt) (st : St) : evolves st (exec (stmt x) st).
Proof.
  destruct st as [s w].
  destruct x; cbn [stmt]; unfold exec, bindM, Infof, netListen, send, takeIncoming,
    Close, updConns, setWillClose, setIsClosed, emit, pureM; cbn [fst snd];
    try (apply evolves_world;
         repeat first [apply worldGrows_log | apply worldGrows_deliver
                      | apply worldGrows_clearIncoming
                      | eapply worldGrows_trans; [| apply worldGrows_markClosed]
                      | eapply worldGrows_trans; [| apply worldGrows_deliver]]);
    (split; [unfold sameIdentity; cbn; tauto |]);
    (split; [unfold flagsKept; cbn; tauto |]);
    first [apply worldGrows_refl | apply worldGrows_log].
Qed.

Lemma evolves_runStmts (xs : list Stmt) : forall st, evolves st (runStmts xs st).
Proof.
  induction xs as [|x xs IH]; intros st; cbn [runStmts]; [apply evolves_refl |].
  exact (evolves_trans _ _ _ (evolves_stmt x st) (IH _)).
Qed.

Lemma runStmts_app (xs ys : list Stmt) :
  forall st, runStmts (xs ++ ys) st = runStmts ys (runStmts xs st).
Proof. induction xs as [|x xs IH]; intros st; cbn [runStmts app]; [reflexivity | apply IH]. Qed.

(** *** The methods are sequences of statements *)

Lemma statements_pure {A} (a : A) : statements (pureM a).
Proof. intros st. now exists []. Qed.

Lemma statements_bind {A B} (c : M A) (k : A -> M B) :
  statements c -> (forall a, statements (k a)) -> statements (bindM c k).
Proof.
  intros Hc Hk st. unfold bindM. destruct (Hc st) as [xs Hxs].
  destruct (c st) as [a st1]. cbn [snd] in Hxs. destruct (Hk a st1) as [ys Hys].
  exists (xs ++ ys). now rewrite runStmts_app, <- Hxs.
Qed.

(** A computation that is one statement. *)
Lemma statements_stmt {A} (c : M A) (x : St -> Stmt) :
  (forall st, snd (c st) = exec (stmt (x st)) st) -> statements c.
Proof. intros H st. exists [x st]. cbn [runStmts]. apply H. Qed.

Lemma statements_getS : statements getS.
Proof. intros st. now exists []. Qed.

Lemma statements_Infof (format : string) : statements (Infof format).
Proof. now apply (statements_stmt _ (fun _ => SInfof format)). Qed.

Lemma statements_Accept : statements (emit EAccept).
Proof. now apply (statements_stmt _ (fun _ => SAccept)). Qed.

Lemma statements_SshDial (addr : string) : statements (emit (ESshDial addr)).
Proof. now apply (statements_stmt _ (fun _ => SSshDial addr)). Qed.

Lemma statements_Dial (client : nat) (addr : string) :
  statements (emit (EDial client addr)).
Proof. now apply (statements_stmt _ (fun _ => SDial client addr)). Qed.

Lemma statements_Copy (writer reader : nat) : statements (emit (ECopy writer reader)).
Proof. now apply (statements_stmt _ (fun _ => SCopy writer reader)). Qed.

Lemma statements_Go (t : Task) : statements (emit (EGo t)).
Proof. now apply (statements_stmt _ (fun _ => SGo t)). Qed.

Lemma statements_Close (h : Handle) : statements (Close h).
Proof. apply (statements_stmt _ (fun _ => SClose h)). now intros [s w]. Qed.

Lemma statements_send (b : bool) : statements (send b).
Proof. apply (statements_stmt _ (fun _ => SSend b)). now intros [s w]. Qed.

Lemma statements_netListen (addr : string) : statements (netListen addr).
Proof. apply (statements_stmt _ (fun _ => SListen addr)). now intros [s w]. Qed.

Lemma statements_takeIncoming : statements takeIncoming.
Proof. apply (statements_stmt _ (fun _ => STakeIncoming)). now intros [s w]. Qed.

Lemma statements_appendLocalConn (c : nat) : statements (appendLocalConn c).
Proof.
  apply (statements_stmt _ (fun st => SStoreLocalConns (localConns (fst st) ++ [c]))).
  now intros [s w].
Qed.

Lemma statements_appendSshConn (c : nat) : statements (appendSshConn c).
Proof.
  apply (statements_stmt _ (fun st => SStoreSshConns (sshConns (fst st) ++ [c]))).
  now intros [s w].
Qed.

Lemma statements_appendRemoteConn (c : nat) : statements (appendRemoteConn c).
Proof.
  apply (statements_stmt _ (fun st => SStoreRemoteConns (remoteConns (fst st) ++ [c]))).
  now intros [s w].
Qed.

Lemma statements_setWillClose : statements (setWillClose true).
Proof. now apply (statements_stmt _ (fun _ => SSetWillClose)). Qed.

Lemma statements_setIsClosed : statements (setIsClosed true).
Proof. now apply (statements_stmt _ (fun _ => SSetIsClosed)). Qed.

Lemma statements_forRange {A B} (xs : list A) (body : A -> M B) :
  (forall x, statements (body x)) -> statements (forRange xs body).
Proof.
  intros Hbody. induction xs as [|x xs IH]; cbn [forRange].
  - apply statements_pure.
  - apply statements_bind; [apply Hbody | intros _; exact IH].
Qed.

End Lifecycle.

Create HintDb statements discriminated.

#[export] Hint Resolve statements_pure statements_getS statements_Infof
  statements_Accept statements_SshDial statements_Dial statements_Copy statements_Go
  statements_Close statements_send statements_netListen statements_takeIncoming
  statements_appendLocalConn statements_appendSshConn statements_appendRemoteConn
  statements_setWillClose statements_setIsClosed : statements.

(** Goes through the binds and the branches of a method. *)
Ltac by_statements :=
  repeat first
    [ solve [auto with statements]
    | apply statements_forRange; intros ?
    | match goal with
      | |- statements (match ?x with _ => _ end) => destruct x
      end
    | apply statements_bind; [| intros ?] ].

Section LifecycleOps.
Import Ssh.

Lemma statements_acceptLoop (outcomes : list (result nat)) :
  statements (acceptLoop outcomes).
Proof.
  induction outcomes as [|a outcomes IH]; cbn [acceptLoop]; [apply statements_pure |].
  by_statements.
Qed.

Lemma statements_Start : statements Start.
Proof. unfold Start. by_statements. apply statements_acceptLoop. Qed.

Lemma statements_forwardConnection (localConn : nat) (sshDial remoteDial : result nat) :
  statements (forwardConnection localConn sshDial remoteDial).
Proof. unfold forwardConnection. by_statements. Qed.

Lemma statements_forwarderStep
    (localConn remoteConn serverConn writer reader : nat) (copyErr : option string)
    (pc : Pc) (err : option string) :
  statements (forwarderStep localConn remoteConn serverConn writer reader copyErr pc err).
Proof. destruct pc; cbn [forwarderStep]; by_statements. Qed.

Lemma statements_copyTasks
    (localConn remoteConn serverConn : nat) (copyErr1 copyErr2 : option string)
    (sched : list Side) :
  forall p, statements (copyTasks localConn remoteConn serverConn copyErr1 copyErr2 sched p).
Proof.
  induction sched as [|side sched IH]; intros p; cbn [copyTasks];
    [apply statements_pure |].
  destruct (isPanicked (pcFirst p) || isPanicked (pcSecond p))%bool;
    [apply statements_pure |].
  apply statements_bind; [| intros p'; apply IH].
  destruct side; cbn [copyTaskStep];
    (apply statements_bind; [apply statements_forwarderStep | intros r; apply statements_pure]).
Qed.

Lemma statements_forwarderFunc
    (localConn remoteConn serverConn writer reader : nat) (copyErr : option string) :
  statements (forwarderFunc localConn remoteConn serverConn writer reader copyErr).
Proof.
  unfold forwarderFunc. apply statements_bind; [| intros r; apply statements_pure].
  generalize InCopy (@None string). generalize 10%nat.
  intros n. induction n as [|n IH]; intros pc err; cbn [forwarderSteps];
    [apply statements_pure |].
  apply statements_bind; [apply statements_forwarderStep | intros r; apply IH].
Qed.

Lemma statements_Stop : statements Stop.
Proof. unfold Stop. by_statements. Qed.

End LifecycleOps.

(** X24: a flag that is raised stays raised, a closed handle stays closed
    and the trace is only added to, over any sequence of statements of
    the engine's goroutines, in whatever order they are interleaved; and
    every run of [Start], of a pipeline, of its copy tasks under any
    schedule and of [Stop] is such a sequence. *)
Theorem engine_only_grows :
  (forall (xs : list Stmt) (st : Ssh.St),
      flagsKept (fst st) (fst (runStmts xs st))
      /\ worldGrows (snd st) (snd (runStmts xs st)))
  /\ statements Ssh.Start
  /\ (forall localConn sshDial remoteDial,
         statements (Ssh.forwardConnection localConn sshDial remoteDial))
  /\ (forall localConn remoteConn serverConn copyErr1 copyErr2 sched p,
         statements (Ssh.copyTasks localConn remoteConn serverConn copyErr1 copyErr2
                       sched p))
  /\ statements Ssh.Stop.
Proof.
  split; [intros xs st; destruct (evolves_runStmts xs st) as (_ & Hg & Hw); now split |].
  split; [apply statements_Start |].
  split; [apply statements_forwardConnection |].
  split; [intros; apply statements_copyTasks | apply statements_Stop].
Qed.

(** X25: what an engine reports about itself never changes: over any
    sequence of statements of its goroutines, [GetName],
    [GetLocalEndpoint] and [GetRemoteEndpoint] return what they returned
    at the start, and the address dialed for the SSH server is the same;
    so it is over every run of [Start], of a pipeline, of its copy tasks
    and of [Stop]. *)
Theorem engine_identity_fixed :
  (forall (xs : list Stmt) (st : Ssh.St),
      Ssh.GetName (fst (runStmts xs st)) = Ssh.GetName (fst st)
      /\ Ssh.GetLocalEndpoint (fst (runStmts xs st)) = Ssh.GetLocalEndpoint (fst st)
      /\ Ssh.GetRemoteEndpoint (fst (runStmts xs st)) = Ssh.GetRemoteEndpoint (fst st)
      /\ Ssh.serverTunnelEndpoint (fst (runStmts xs st))
         = Ssh.serverTunnelEndpoint (fst st))
  /\ (forall st, sameIdentity (fst st) (fst (Ssh.exec Ssh.Start st)))
  /\ (forall localConn sshDial remoteDial st,
         sameIdentity (fst st)
           (fst (Ssh.exec (Ssh.forwardConnection localConn sshDial remoteDial) st)))
  /\ (forall localConn remoteConn serverConn copyErr1 copyErr2 sched p st,
         sameIdentity (fst st)
           (fst (Ssh.exec (Ssh.copyTasks localConn remoteConn serverConn
                             copyErr1 copyErr2 sched p) st)))
  /\ (forall st, sameIdentity (fst st) (fst (Ssh.exec Ssh.Stop st))).
Proof.
  assert (Hcover : forall {A} (c : Ssh.M A) st,
             statements c -> sameIdentity (fst st) (fst (Ssh.exec c st))).
  { intros A c st Hc. destruct (Hc st) as [xs Hxs]. unfold Ssh.exec. rewrite Hxs.
    now destruct (evolves_runStmts xs st) as (Hi & _). }
  split.
  - intros xs st.
    destruct (evolves_runStmts xs st) as ((Hn & _ & _ & Hp & Hl & Hs & Hr & _) & _ & _).
    unfold Ssh.GetName, Ssh.GetLocalEndpoint, Ssh.GetRemoteEndpoint.
    rewrite Hn, Hp, Hl, Hs, Hr. repeat split.
  - split; [intros st; apply Hcover, statements_Start |].
    split; [intros; apply Hcover, statements_forwardConnection |].
    split; [intros; apply Hcover, statements_copyTasks |].
    intros st; apply Hcover, statements_Stop.
Qed.

(** With [willClose] set, the copy tasks of a pipeline log nothing and
    never reach [err.Error()], whatever their copies return and whatever
    the schedule. *)
Lemma copyTasks_silent
    (s : Ssh.SshTunnel) (w : World) (localConn remoteConn serverConn : nat)
    (copyErr1 copyErr2 : option string) (sched : list Ssh.Side) :
  Ssh.willClose s = true ->
  let run := Ssh.copyTasks localConn remoteConn serverConn copyErr1 copyErr2 sched
               Ssh.started (s, w) in
  logged (Ssh.emitted w (snd (snd run))) = []
  /\ Ssh.pcFirst (fst run) <> Ssh.Panicked
  /\ Ssh.pcSecond (fst run) <> Ssh.Panicked.
Proof.
  intros Hflag run.
  pose (loud := [Ssh.AtLog; Ssh.AtDeferReader true; Ssh.AtDeferWriter true;
                 Ssh.Panicked]).
  pose (I := fun (p : Ssh.Pipeline) (st : Ssh.St) =>
               Ssh.willClose (fst st) = true
               /\ ~ In (Ssh.pcFirst p) loud /\ ~ In (Ssh.pcSecond p) loud
               /\ (exists events, trace (snd st) = (trace w ++ events)%list
                                  /\ logged events = [])).
  assert (Hrun : I (fst run) (snd run)).
  { subst run. apply copyTasks_invariant; subst I loud; cbn beta.
    - clear. intros side p [s' w'] (Hflag & H1 & H2 & events & Htr & Hlog).
      destruct p as [pc1 pc2 e]. cbn [fst snd Ssh.pcFirst Ssh.pcSecond Ssh.errVar] in *.
      copy_step side pc1 pc2; cbn [In] in H1, H2;
        try (exfalso; apply H1; solve [auto 8]);
        try (exfalso; apply H2; solve [auto 8]);
        try (destruct e; cbn [fst snd Ssh.pcFirst Ssh.pcSecond Ssh.errVar]);
        cbn [Ssh.willClose Ssh.setFlags];
        rewrite ?Hflag; cbn [negb fst snd Ssh.pcFirst Ssh.pcSecond Ssh.errVar In];
        (split; [first [exact Hflag | reflexivity] |]);
        (split; [first [exact H1 | intros Hpc; no_such_event Hpc] |]);
        (split; [first [exact H2 | intros Hpc; no_such_event Hpc] |]);
        cbn [trace log markClosed]; rewrite Htr, <- ?app_assoc;
        eexists; (split; [reflexivity |]);
        rewrite ?logged_app, Hlog; reflexivity.
    - cbn [Ssh.started Ssh.pcFirst Ssh.pcSecond Ssh.errVar fst snd In].
      split; [exact Hflag |].
      split; [intros Hpc; no_such_event Hpc |].
      split; [intros Hpc; no_such_event Hpc |].
      exists []. now rewrite app_nil_r. }
  destruct Hrun as (_ & H1 & H2 & events & Htr & Hlog). subst loud. cbn [In] in *.
  split; [now rewrite (emitted_since _ _ _ Htr) |].
  split; intros E; [apply H1 | apply H2]; rewrite E; auto 8.
Qed.

(** X26: once [Stop] has run, no copy error is reported any more.  From
    the store [s.willClose = true] of [Stop] on, whatever statements of
    the engine's goroutines follow or are mixed with the rest of [Stop],
    [willClose] is set; the copy tasks of a pipeline whose copies end
    from then on log nothing and do not panic, whatever their copies
    return and in whatever order their statements run.  So it is after a
    whole run of [Stop]. *)
Theorem no_error_logged_after_Stop
    (st : Ssh.St) (xs : list Stmt)
    (localConn remoteConn serverConn : nat) (copyErr1 copyErr2 : option string)
    (sched : list Ssh.Side) :
  (let st1 := runStmts xs (Ssh.exec (Ssh.setWillClose true) st) in
   let run := Ssh.copyTasks localConn remoteConn serverConn copyErr1 copyErr2 sched
                Ssh.started st1 in
   Ssh.willClose (fst st1) = true
   /\ logged (Ssh.emitted (snd st1) (snd (snd run))) = []
   /\ Ssh.pcFirst (fst run) <> Ssh.Panicked
   /\ Ssh.pcSecond (fst run) <> Ssh.Panicked)
  /\
  (let st1 := runStmts xs (Ssh.exec Ssh.Stop st) in
   let run := Ssh.copyTasks localConn remoteConn serverConn copyErr1 copyErr2 sched
                Ssh.started st1 in
   Ssh.willClose (fst st1) = true
   /\ logged (Ssh.emitted (snd st1) (snd (snd run))) = []
   /\ Ssh.pcFirst (fst run) <> Ssh.Panicked
   /\ Ssh.pcSecond (fst run) <> Ssh.Panicked).
Proof.
  assert (Hafter : forall st0 : Ssh.St,
             Ssh.willClose (fst st0) = true ->
             let st1 := runStmts xs st0 in
             let run := Ssh.copyTasks localConn remoteConn serverConn copyErr1 copyErr2
                          sched Ssh.started st1 in
             Ssh.willClose (fst st1) = true
             /\ logged (Ssh.emitted (snd st1) (snd (snd run))) = []
             /\ Ssh.pcFirst (fst run) <> Ssh.Panicked
             /\ Ssh.pcSecond (fst run) <> Ssh.Panicked).
  { intros st0 Hset st1 run.
    assert (Hwc : Ssh.willClose (fst st1) = true).
    { subst st1. destruct (evolves_runStmts xs st0) as (_ & (Hflag & _) & _).
      now apply Hflag. }
    split; [exact Hwc |]. subst run. destruct st1 as [s1 w1]. cbn [fst snd] in *.
    now apply copyTasks_silent. }
  destruct st as [s w]. split; apply Hafter; [reflexivity |].
  now rewrite Stop_run.
Qed.



(** X28: [Stop] does not end the accept loop.  A connection that the loop
    of [Start] accepts after [Stop] is tracked and handed to a forwarding
    task like any other, and it is open although [isClosed] is [true]. *)
Theorem accept_after_Stop (s : Ssh.SshTunnel) (w : World) (c : nat) :
  NetConn c ∉ closed w ->
  ~ In c (Ssh.localConns s ++ Ssh.remoteConns s)%list ->
  let st1 := Ssh.exec Ssh.Stop (s, w) in
  let st2 := Ssh.exec (Ssh.acceptLoop [OK c]) st1 in
  Ssh.isClosed (fst st2) = true
  /\ Ssh.localConns (fst st2) = (Ssh.localConns s ++ [c])%list
  /\ spawned (Ssh.emitted (snd st1) (snd st2)) = [GoForwardConnection c]
  /\ NetConn c ∉ closed (snd st2).
Proof.
  intros Hopen Hnew st1 st2. subst st2 st1. rewrite Stop_run, acceptLoop_run.
  cbn [fst snd]. split; [reflexivity |]. split; [reflexivity |].
  split; [now rewrite emitted_log |].
  cbn [closed log]. rewrite closed_closeAll. cbn [closed log].
  rewrite elem_of_union, elem_of_list_to_set, list_elem_of_In.
  intros [Hin | Hin]; [| exact (Hopen Hin)].
  apply Hnew. unfold Ssh.tracked in Hin.
  rewrite !in_app_iff, !in_map_iff in Hin. rewrite in_app_iff.
  destruct Hin as [Hin | [Hin | Hin]]; destruct Hin as (x & Heq & Hx);
    [injection Heq as ->; now left | discriminate Heq | injection Heq as ->; now right].
Qed.

Lemma accept_after_Stop_witness :
  let w := {| randDraw := 0; listenErr := fun _ => None; incoming := [];
              closed := {[NetConn 1%nat]}; tunnelReady := [true]; trace := [] |} in
  let s := setConns [1%nat] [] [] exampleTunnel in
  (NetConn 2%nat ∉ closed w)
  /\ Ssh.isClosed (fst (Ssh.exec (Ssh.acceptLoop [OK 2%nat]) (Ssh.exec Ssh.Stop (s, w))))
     = true
  /\ NetConn 2%nat
     ∉ closed (snd (Ssh.exec (Ssh.acceptLoop [OK 2%nat]) (Ssh.exec Ssh.Stop (s, w)))).
Proof.
  intros w s.
  assert (Hopen : NetConn 2%nat ∉ closed w).
  { cbn. rewrite elem_of_singleton. discriminate. }
  assert (Hnew : ~ In 2%nat (Ssh.localConns s ++ Ssh.remoteConns s)%list).
  { cbn. intros [H | []]. discriminate H. }
  pose proof (accept_after_Stop s w 2%nat Hopen Hnew) as H. cbv zeta in H.
  destruct H as (Hflag & _ & _ & Hstill).
  split; [exact Hopen |]. split; [exact Hflag | exact Hstill].
Defined.
